(** * Ketama consistent hashing (src/ketama.c): embedding and properties

    The C translation unit is embedded as Rocq functions over an explicit
    [Ketama] record.  Functions that take a [Ketama *] are computations in a
    small state-and-failure monad [M]; machine integers are [Z] with their
    ranges written out; the single-precision arithmetic that sizes each
    server's share is the IEEE 754 model of [SpecFloat]. *)

From Stdlib Require Import ZArith List String Ascii Lia Bool.
From Stdlib Require Import Strings.Byte DecimalString.
From Stdlib Require Import Floats.SpecFloat.
From Stdlib Require Import NArith.
From Stdlib Require DecimalFacts DecimalPos DecimalN.
Import ListNotations.

Local Open Scope Z_scope.

(** ** Machine integers *)

Definition INT_MAX : Z := 2147483647.
Definition INT_MIN : Z := -2147483648.

(** [unsigned int] and [unsigned long] (LP64) arithmetic wraps around. *)
Definition to_uint (z : Z) : Z := z mod 4294967296.
Definition to_ulong (z : Z) : Z := z mod 18446744073709551616.

(** Conversion of a 32-bit pattern to [int] (two's complement). *)
Definition to_int (z : Z) : Z :=
  let u := to_uint z in if u <=? INT_MAX then u else u - 4294967296.

Definition in_int (z : Z) : bool := (INT_MIN <=? z) && (z <=? INT_MAX).

(** ** Data *)

(** [mcs]: one point on the circle and the address that owns it. *)
Record mcs : Type := { point : Z; ip : string }.

(** [serverinfo]; its [memory] field is [sinfo_memory] here, the name
    [memory] being taken by the field of [struct _Ketama]. *)
Record serverinfo : Type := { addr : string; sinfo_memory : Z }.

(** [struct _Ketama].  [continuum] is [None] for the NULL pointer and
    otherwise the entries written so far; [servers] lists the entries in the
    order [list_for_each_entry] visits them. *)
Record Ketama : Type := {
  numpoints : Z;
  numservers : Z;
  memory : Z;
  continuum : option (list mcs);
  servers : list serverinfo
}.

Definition set_continuum (c : option (list mcs)) (k : Ketama) : Ketama :=
  {| numpoints := numpoints k; numservers := numservers k;
     memory := memory k; continuum := c; servers := servers k |}.

(** ** Outcomes and the monad of [Ketama *] functions *)

(** A call returns ([Done]), stops on a failed [assert] ([Aborted]), performs
    an operation C leaves undefined ([Undefined]: signed overflow, an access
    outside the array, a float-to-integer conversion out of range, a
    [sprintf] past its buffer), or exhausts the iteration budget of the
    embedding ([OutOfFuel]). *)
Inductive outcome (A : Type) : Type :=
| Done (a : A)
| Aborted
| Undefined
| OutOfFuel.

Arguments Done {A} a.
Arguments Aborted {A}.
Arguments Undefined {A}.
Arguments OutOfFuel {A}.

Definition M (A : Type) : Type := Ketama -> outcome (A * Ketama).

Definition ret {A} (a : A) : M A := fun k => Done (a, k).

Definition bind {A B} (m : M A) (f : A -> M B) : M B :=
  fun k =>
    match m k with
    | Done (a, k') => f a k'
    | Aborted => Aborted
    | Undefined => Undefined
    | OutOfFuel => OutOfFuel
    end.

Notation "x <- m ;; f" := (bind m (fun x => f))
  (at level 61, m at next level, right associativity).
Notation "m ;;; f" := (bind m (fun _ => f))
  (at level 61, right associativity).

Definition load {A} (f : Ketama -> A) : M A := fun k => Done (f k, k).
Definition modify (f : Ketama -> Ketama) : M unit := fun k => Done (tt, f k).
Definition abort {A} : M A := fun _ => Aborted.
Definition undefined {A} : M A := fun _ => Undefined.
Definition out_of_fuel {A} : M A := fun _ => OutOfFuel.

(** [assert(c)], assertions compiled in (NDEBUG not defined). *)
Definition assert (c : bool) : M unit := if c then ret tt else abort.

(** [a + b] on [int]. *)
Definition int_add (a b : Z) : M Z :=
  if in_int (a + b) then ret (a + b) else undefined.

(** The read of [point] in entry [i] of [mcsarr]. *)
Definition load_point (i : Z) : M Z :=
  fun k =>
    match continuum k with
    | None => Undefined
    | Some arr =>
        if i <? 0 then Undefined
        else match nth_error arr (Z.to_nat i) with
             | Some m => Done (point m, k)
             | None => Undefined
             end
    end.

(** [continuum[cont] = v]: entry [cont] is replaced, or appended when [cont]
    is the number of entries written so far.  The block behind [continuum]
    is the one requested from [Alloc_alloc], [numservers * sizeof(mcs)]
    bytes: it has [numservers] entries ([numservers] does not change while
    construction runs), and a store at an index from [numservers] on is
    outside it. *)
Definition store_mcs (cont : Z) (v : mcs) : M unit :=
  fun k =>
    match continuum k with
    | None => Undefined
    | Some arr =>
        if numservers k <=? cont then Undefined
        else
          let i := Z.to_nat cont in
          Done (tt,
                set_continuum (Some (firstn i arr ++ v :: skipn (S i) arr)) k)
    end.

(** [for (i = start; i < start + n; i++) s = body i s]. *)
Fixpoint for_loop {S : Type} (n : nat) (i : Z) (body : Z -> S -> M S) (s : S)
  : M S :=
  match n with
  | O => ret s
  | Datatypes.S n' => s' <- body i s ;; for_loop n' (i + 1) body s'
  end.

(** ** Strings *)

(** [%d]. *)
Definition dec (z : Z) : string := NilZero.string_of_int (Z.to_int z).

Definition strlen (s : string) : Z := Z.of_nat (String.length s).

(** [digest[i]], an [unsigned char] promoted to [int]. *)
Definition digest_at (digest : list byte) (i : Z) : Z :=
  Z.of_N (Byte.to_N (nth (Z.to_nat i) digest x00)).

(** [b << n] on [int]: the 32-bit pattern, read back as [int] (what
    compilers produce when the shift reaches the sign bit). *)
Definition int_shl (b n : Z) : Z := to_int (Z.shiftl b n).

(** ** Binary search state *)

Inductive iteration : Type :=
| Return (p : Z)
| Continue (lowp highp : Z).

(** ** Floating point *)

Definition float_prec : Z := 24.
Definition float_emax : Z := 128.
Definition double_prec : Z := 53.
Definition double_emax : Z := 1024.

(** [(float)z] for an unsigned integer [z]. *)
Definition float_of_Z (z : Z) : spec_float :=
  binary_normalize float_prec float_emax z 0 false.

(** The value of [x] rounded to the format [(prec, emax)]. *)
Definition float_cast (prec emax : Z) (x : spec_float) : spec_float :=
  match x with
  | S754_finite s m e => binary_normalize prec emax (cond_Zopp s (Zpos m)) e s
  | _ => x
  end.

Definition double_of_float : spec_float -> spec_float :=
  float_cast double_prec double_emax.
Definition float_of_double : spec_float -> spec_float :=
  float_cast float_prec float_emax.

(** The double constant [40.0]. *)
Definition double_40 : spec_float :=
  binary_normalize double_prec double_emax 40 0 false.

(** [floorf]. *)
Definition floorf (x : spec_float) : spec_float :=
  match x with
  | S754_finite s m e =>
      if 0 <=? e then x
      else binary_normalize float_prec float_emax
             (cond_Zopp s (Zpos m) / 2 ^ (- e)) 0 s
  | _ => x
  end.

(** [(unsigned int)x]: truncation toward zero, undefined ([None]) for NaN,
    the infinities and values outside the range of [unsigned int]. *)
Definition uint_of_float (x : spec_float) : option Z :=
  match x with
  | S754_zero _ => Some 0
  | S754_finite s m e =>
      let v := if 0 <=? e then cond_Zopp s (Zpos m) * 2 ^ e
               else Z.quot (cond_Zopp s (Zpos m)) (2 ^ (- e)) in
      if (0 <=? v) && (v <? 4294967296) then Some v else None
  | _ => None
  end.

(** The number of digest rounds of a server:
    [float pct = (float)sinfo->memory / (float)ketama->memory;
     unsigned int ks = floorf( pct * 40.0 * (float)ketama->numservers );]
    The product is formed in double precision ([40.0] is a double) and
    rounded to [float] for [floorf]. *)
Definition hash_rounds (mem total nserv : Z) : option Z :=
  let pct := SFdiv float_prec float_emax (float_of_Z mem) (float_of_Z total) in
  let prod :=
    SFmul double_prec double_emax
      (SFmul double_prec double_emax (double_of_float pct) double_40)
      (double_of_float (float_of_Z nserv)) in
  uint_of_float (floorf (float_of_double prod)).

(** ** The MD5 digest *)

Module MD5.

(** Modelled from the spec: md5.h and its implementation ([md5_init],
    [md5_append], [md5_finish]) are not part of the translation unit; the
    spec names the digest as the 128-bit MD5 function.  This is MD5 as
    RFC 1321 defines it, on a byte string, giving the 16 digest bytes. *)
Definition sines : list Z :=
  [ 3614090360; 3905402710; 606105819; 3250441966;
    4118548399; 1200080426; 2821735955; 4249261313;
    1770035416; 2336552879; 4294925233; 2304563134;
    1804603682; 4254626195; 2792965006; 1236535329;
    4129170786; 3225465664; 643717713; 3921069994;
    3593408605; 38016083; 3634488961; 3889429448;
    568446438; 3275163606; 4107603335; 1163531501;
    2850285829; 4243563512; 1735328473; 2368359562;
    4294588738; 2272392833; 1839030562; 4259657740;
    2763975236; 1272893353; 4139469664; 3200236656;
    681279174; 3936430074; 3572445317; 76029189;
    3654602809; 3873151461; 530742520; 3299628645;
    4096336452; 1126891415; 2878612391; 4237533241;
    1700485571; 2399980690; 4293915773; 2240044497;
    1873313359; 4264355552; 2734768916; 1309151649;
    4149444226; 3174756917; 718787259; 3951481745 ].

Definition shifts : list Z :=
  [ 7; 12; 17; 22; 7; 12; 17; 22; 7; 12; 17; 22; 7; 12; 17; 22;
    5; 9; 14; 20; 5; 9; 14; 20; 5; 9; 14; 20; 5; 9; 14; 20;
    4; 11; 16; 23; 4; 11; 16; 23; 4; 11; 16; 23; 4; 11; 16; 23;
    6; 10; 15; 21; 6; 10; 15; 21; 6; 10; 15; 21; 6; 10; 15; 21 ].

Definition rotl (x c : Z) : Z :=
  to_uint (Z.lor (Z.shiftl x c) (Z.shiftr x (32 - c))).

Definition compl (x : Z) : Z := Z.lxor x 4294967295.

Definition zth (l : list Z) (i : Z) : Z := nth (Z.to_nat i) l 0.

(** One of the 64 operations of a block. *)
Definition operation (blk : list Z) (s : Z * Z * Z * Z) (i : Z)
  : Z * Z * Z * Z :=
  let '(a, b, c, d) := s in
  let '(f, g) :=
    if i <? 16 then (Z.lor (Z.land b c) (Z.land (compl b) d), i)
    else if i <? 32 then
      (Z.lor (Z.land d b) (Z.land (compl d) c), (5 * i + 1) mod 16)
    else if i <? 48 then (Z.lxor (Z.lxor b c) d, (3 * i + 5) mod 16)
    else (Z.lxor c (Z.lor b (compl d)), (7 * i) mod 16) in
  let f' := to_uint (f + a + zth sines i + zth blk g) in
  (d, to_uint (b + rotl f' (zth shifts i)), b, c).

(** A 32-bit word from four bytes, least significant first. *)
Definition word_of_bytes (l : list Z) : Z :=
  zth l 0 + 256 * zth l 1 + 65536 * zth l 2 + 16777216 * zth l 3.

Fixpoint words_of_bytes (n : nat) (l : list Z) : list Z :=
  match n with
  | O => []
  | S n' => word_of_bytes l :: words_of_bytes n' (skipn 4 l)
  end.

Definition bytes_of_word (w : Z) : list Z :=
  [ w mod 256; (w / 256) mod 256; (w / 65536) mod 256;
    (w / 16777216) mod 256 ].

Definition process_block (s : Z * Z * Z * Z) (bytes : list Z)
  : Z * Z * Z * Z :=
  let blk := words_of_bytes 16 bytes in
  let '(a, b, c, d) := fold_left (operation blk) (map Z.of_nat (seq 0 64)) s in
  let '(a0, b0, c0, d0) := s in
  (to_uint (a0 + a), to_uint (b0 + b), to_uint (c0 + c), to_uint (d0 + d)).

Fixpoint process_blocks (n : nat) (s : Z * Z * Z * Z) (bytes : list Z)
  : Z * Z * Z * Z :=
  match n with
  | O => s
  | S n' => process_blocks n' (process_block s (firstn 64 bytes))
              (skipn 64 bytes)
  end.

Definition padding (len : Z) : list Z :=
  128 :: repeat 0 (Z.to_nat ((55 - len) mod 64))
    ++ bytes_of_word (to_uint (8 * len))
    ++ bytes_of_word (to_uint ((8 * len) / 4294967296)).

Definition initial_state : Z * Z * Z * Z :=
  (1732584193, 4023233417, 2562383102, 271733878).

Definition byte_of_Z (z : Z) : byte :=
  match Byte.of_N (Z.to_N z) with Some b => b | None => x00 end.

Definition bytes_of_string (s : string) : list Z :=
  map (fun c => Z.of_N (N_of_ascii c)) (list_ascii_of_string s).

Definition md5 (s : string) : list byte :=
  let msg := bytes_of_string s in
  let padded := msg ++ padding (Z.of_nat (List.length msg)) in
  let '(a, b, c, d) :=
    process_blocks (Nat.div (List.length padded) 64) initial_state padded in
  map byte_of_Z
    (bytes_of_word a ++ bytes_of_word b ++ bytes_of_word c ++ bytes_of_word d).

(** The digest printed in hexadecimal, most significant nibble first. *)
Definition hex_digit (n : N) : ascii :=
  ascii_of_N (if (n <? 10)%N then 48 + n else 87 + n)%N.

Definition hex (d : list byte) : string :=
  string_of_list_ascii
    (flat_map (fun b => [hex_digit (Byte.to_N b / 16);
                         hex_digit (Byte.to_N b mod 16)]) d).

End MD5.

(** ** The functions of ketama.c *)

Section Ketama.

(** The digest behind [md5_init], [md5_append] and [md5_finish]. *)
Variable md5 : string -> list byte.

(** [list_add] of list.h, which is not part of the translation unit: where
    a new entry goes in the sequence [list_for_each_entry] visits. *)
Variable list_add : serverinfo -> list serverinfo -> list serverinfo.

Definition Ketama_new : Ketama :=
  {| numpoints := 0; numservers := 0; memory := 0;
     continuum := None; servers := [] |}.

(** [sprintf(info->addr, "%s:%d", addr, port)] writes into
    [char addr[22]]. *)
Definition Ketama_add_server (a : string) (port weight : Z) : M unit :=
  let weight := to_ulong weight in
  let s := (a ++ ":" ++ dec (to_int port))%string in
  if 21 <? strlen s then undefined
  else
    modify (fun k =>
      {| numpoints := numpoints k;
         numservers := to_uint (numservers k + 1);
         memory := to_ulong (memory k + weight);
         continuum := continuum k;
         servers :=
           list_add {| addr := s; sinfo_memory := weight |} (servers k) |}).

Definition ketama_md5_digest (inString : string) : list byte := md5 inString.

Definition ketama_hashi (inString : string) : Z :=
  let digest := ketama_md5_digest inString in
  to_uint (Z.lor (Z.lor (Z.lor (int_shl (digest_at digest 3) 24)
                               (int_shl (digest_at digest 2) 16))
                        (int_shl (digest_at digest 1) 8))
                 (digest_at digest 0)).

(** The tests that follow the two array reads in the body of
    [while ( 1 )]: the match, the move of [lowp] or [highp], and the exit
    when they cross. *)
Definition search_branch (h lowp highp midp midval midval1 : Z) : iteration :=
  if (h <=? midval) && (midval1 <? h) then Return midp
  else
    let lowp' := if midval <? h then midp + 1 else lowp in
    let highp' := if midval <? h then highp else midp - 1 in
    if highp' <? lowp' then Return 0 else Continue lowp' highp'.

(** One pass through the body of [while ( 1 )] in [Ketama_get_server]. *)
Definition get_server_iteration (h lowp highp : Z) : M iteration :=
  sum <- int_add lowp highp ;;
  let midp := Z.quot sum 2 in
  np <- load numpoints ;;
  if midp =? np then ret (Return 0)
  else
    midval <- load_point midp ;;
    midval1 <- (if midp =? 0 then ret 0 else load_point (midp - 1)) ;;
    ret (search_branch h lowp highp midp midval midval1).

Fixpoint get_server_loop (fuel : nat) (h lowp highp : Z) : M Z :=
  match fuel with
  | O => out_of_fuel
  | S fuel' =>
      it <- get_server_iteration h lowp highp ;;
      match it with
      | Return p => ret p
      | Continue lowp' highp' => get_server_loop fuel' h lowp' highp'
      end
  end.

(** The search for the hash value [h]: the body of [Ketama_get_server]
    after its first line.  The result is the index [p] of the entry whose
    address (entry [p] of [mcsarr]) the C function returns.  The loop is given
    [numpoints + 1] iterations, which it never exhausts (see
    [get_server_loop_fuel]). *)
Definition get_server_for (h : Z) : M Z :=
  highp <- load numpoints ;;
  get_server_loop (S (Z.to_nat highp)) h 0 highp.

Definition Ketama_get_server (key : string) : M Z :=
  get_server_for (ketama_hashi key).

(** The point taken from bytes [4h .. 4h+3] of the digest, stored into the
    [unsigned int] field. *)
Definition continuum_point (digest : list byte) (h : Z) : Z :=
  to_uint (Z.lor (Z.lor (Z.lor (int_shl (digest_at digest (3 + h * 4)) 24)
                               (int_shl (digest_at digest (2 + h * 4)) 16))
                        (int_shl (digest_at digest (1 + h * 4)) 8))
                 (digest_at digest (h * 4))).

(** Body of [for( h = 0; h < 4; h++ )]; the state is [cont]. *)
Definition store_point (sinfo : serverinfo) (digest : list byte)
    (h cont : Z) : M Z :=
  store_mcs cont {| point := continuum_point digest h; ip := addr sinfo |} ;;;
  ret (to_uint (cont + 1)).

(** The string [sprintf( ss, "%s-%d", sinfo->addr, k )] produces. *)
Definition round_name (sinfo : serverinfo) (k : Z) : string :=
  (addr sinfo ++ "-" ++ dec (to_int k))%string.

(** Body of [for( k = 0; k < ks; k++ )]: [sprintf] into [char ss[30]], the
    digest of the [len] characters written, four points. *)
Definition hash_round (sinfo : serverinfo) (k cont : Z) : M Z :=
  let ss := round_name sinfo k in
  if 29 <? strlen ss then undefined
  else
    let digest := ketama_md5_digest ss in
    for_loop 4 0 (store_point sinfo digest) cont.

(** [list_for_each_entry(sinfo, &ketama->servers, list)].  The counter [i]
    and [hpct] only feed the [DEBUG] output and are left out. *)
Fixpoint for_each_server (l : list serverinfo) (cont : Z) : M Z :=
  match l with
  | [] => ret cont
  | sinfo :: rest =>
      total <- load memory ;;
      n <- load numservers ;;
      match hash_rounds (sinfo_memory sinfo) total n with
      | None => undefined
      | Some ks =>
          cont' <- for_loop (Z.to_nat ks) 0 (hash_round sinfo) cont ;;
          for_each_server rest cont'
      end
  end.

Definition is_null {A} (p : option A) : bool :=
  match p with None => true | Some _ => false end.

Definition Ketama_create_continuum : M unit :=
  n <- load numservers ;;
  assert (0 <? n) ;;;
  c <- load continuum ;;
  assert (is_null c) ;;;
  modify (set_continuum (Some [])) ;;;
  l <- load servers ;;
  _ <- for_each_server l 0 ;;
  ret tt.

(** [ketama_compare], the comparison the disabled [qsort] call names. *)
Definition ketama_compare (a b : mcs) : Z :=
  if point a <? point b then -1 else if point b <? point a then 1 else 0.

(** A sequence of [Ketama_add_server] calls, first call first. *)
Fixpoint add_servers (calls : list (string * Z * Z)) : M unit :=
  match calls with
  | [] => ret tt
  | (a, port, weight) :: rest =>
      Ketama_add_server a port weight ;;; add_servers rest
  end.

End Ketama.

(** ** Notions used in the statements *)

(** The array of [ketama->numpoints] entries that [Ketama_get_server]
    declares over [continuum] as [mcsarr]: its first [numpoints] entries. *)
Definition ring (k : Ketama) : list mcs :=
  match continuum k with
  | Some arr => firstn (Z.to_nat (numpoints k)) arr
  | None => []
  end.

(** The structure holds a ring: [numpoints] is not negative and the
    [numpoints] entries are there. *)
Definition holds_ring (k : Ketama) : Prop :=
  Z.of_nat (List.length (ring k)) = numpoints k.

(** Ascending positions, adjacent pair by adjacent pair. *)
Definition sorted (r : list mcs) : Prop :=
  forall i a b,
    nth_error r i = Some a -> nth_error r (S i) = Some b ->
    point a <= point b.

Fixpoint sortedb (r : list mcs) : bool :=
  match r with
  | a :: (b :: _) as rest => (point a <=? point b) && sortedb rest
  | _ => true
  end.

(** The search limit: with fewer points than this, [lowp + highp] stays
    within [int]. *)
Definition SEARCH_LIMIT : Z := 1073741824.

(** A structure whose ring has [INT_MAX] entries, all at position 0. *)
Definition huge_ring : Ketama :=
  {| numpoints := INT_MAX; numservers := 1; memory := 1;
     continuum :=
       Some (repeat {| point := 0; ip := "h:1" |} (Z.to_nat INT_MAX));
     servers := [ {| addr := "h:1"; sinfo_memory := 1 |} ] |}.

(** A ring of three sorted points with [numpoints] set to their number. *)
Definition small_ring : Ketama :=
  {| numpoints := 3; numservers := 2; memory := 2;
     continuum := Some [ {| point := 10; ip := "a:1" |};
                         {| point := 20; ip := "b:1" |};
                         {| point := 20; ip := "a:1" |} ];
     servers := [ {| addr := "b:1"; sinfo_memory := 1 |};
                  {| addr := "a:1"; sinfo_memory := 1 |} ] |}.

(** [p] is what a successor search for [h] in [r] must give: the index of
    the first entry whose position is at least [h], or 0 when every
    position is below [h]. *)
Definition is_successor (r : list mcs) (h p : Z) : Prop :=
  (exists m, nth_error r (Z.to_nat p) = Some m /\ 0 <= p /\ h <= point m /\
             forall j m', (j < Z.to_nat p)%nat ->
                          nth_error r j = Some m' -> point m' < h)
  \/ (p = 0 /\ forall m, In m r -> point m < h).

(** ** The ring that construction writes, as a list *)

Section Points.

Variable md5 : string -> list byte.

(** The four entries of round [k] of a server. *)
Definition round_points (sinfo : serverinfo) (k : Z) : list mcs :=
  map (fun h => {| point := continuum_point (md5 (round_name sinfo k)) h;
                   ip := addr sinfo |})
      [0; 1; 2; 3].

(** The entries of rounds [0 .. ks - 1] of a server. *)
Definition server_points (sinfo : serverinfo) (ks : Z) : list mcs :=
  flat_map (round_points sinfo) (map Z.of_nat (seq 0 (Z.to_nat ks))).

(** The entries of all servers, given the round count of each. *)
Fixpoint ring_points (l : list serverinfo) (rounds : list Z) : list mcs :=
  match l, rounds with
  | sinfo :: l', ks :: rounds' =>
      server_points sinfo ks ++ ring_points l' rounds'
  | _, _ => []
  end.

End Points.

(** Every [sprintf] of rounds [0 .. ks - 1] stays within [char ss[30]]. *)
Definition names_fit (sinfo : serverinfo) (ks : Z) : bool :=
  forallb (fun k => strlen (round_name sinfo k) <=? 29)
          (map Z.of_nat (seq 0 (Z.to_nat ks))).

(** [ks] is the round count the code computes for [sinfo] in [k], and its
    rounds can be named. *)
Definition round_count (k : Ketama) (sinfo : serverinfo) (ks : Z) : Prop :=
  hash_rounds (sinfo_memory sinfo) (memory k) (numservers k) = Some ks /\
  names_fit sinfo ks = true.

Definition total_rounds (rounds : list Z) : Z := fold_right Z.add 0 rounds.


(** Modelled from the spec: list.h ([list_add], [list_for_each_entry]) is
    missing; the spec has [addServer] append the server and construction
    visit the servers in insertion order. *)
Definition list_add_spec (new : serverinfo) (l : list serverinfo)
  : list serverinfo := l ++ [new].

(** Call sequences used as examples. *)
Definition one_server : list (string * Z * Z) :=
  [ ("127.0.0.1"%string, 11211, 1) ].

Definition five_servers : list (string * Z * Z) :=
  [ ("a"%string, 1, 21); ("b"%string, 1, 5); ("c"%string, 1, 5);
    ("d"%string, 1, 5); ("e"%string, 1, 4) ].

Definition weightless_server : list (string * Z * Z) :=
  [ ("a"%string, 1, 0) ].

(** ** Notions used in the proofs *)

(** [k'] differs from [k] in [continuum] at most. *)
Definition keeps_fields (k k' : Ketama) : Prop :=
  numpoints k' = numpoints k /\ numservers k' = numservers k /\
  memory k' = memory k /\ servers k' = servers k.

(** Every return of [m] is related to the state it started from. *)
Definition preserves {A} (R : Ketama -> Ketama -> Prop) (m : M A) : Prop :=
  forall k a k', m k = Done (a, k') -> R k k'.

(** The structure after [Ketama_add_server(k, "127.0.0.1", 11211, 1)]: the
    block construction requests for it has one entry. *)
Definition one_server_set : Ketama :=
  {| numpoints := 0; numservers := 1; memory := 1; continuum := None;
     servers := [ {| addr := "127.0.0.1:11211"; sinfo_memory := 1 |} ] |}.

(** The same server in a structure whose counters are 160: its share is
    1/160 of 40 * 160 rounds, the 40 rounds it has in [one_server_set], and
    the block requested holds their 160 entries. *)
Definition roomy_server_set : Ketama :=
  {| numpoints := 0; numservers := 160; memory := 160; continuum := None;
     servers := [ {| addr := "127.0.0.1:11211"; sinfo_memory := 1 |} ] |}.

(** The structure after [n] calls [Ketama_add_server(k, "a", 1, 1)] on a
    new one. *)
Definition unit_servers (n : nat) : Ketama :=
  {| numpoints := 0; numservers := to_uint (Z.of_nat n);
     memory := to_ulong (Z.of_nat n); continuum := None;
     servers := repeat {| addr := "a:1"; sinfo_memory := 1 |} n |}.

(** 2^32 + 1 such calls: the [unsigned int] server count wraps around to
    1, and every server's share of 40 rounds is 2^-32. *)
Definition wrap_count : nat := Z.to_nat 4294967297.

Definition wrap_calls : list (string * Z * Z) :=
  repeat ("a"%string, 1, 1) wrap_count.

Definition wrapped_set : Ketama := unit_servers wrap_count.

(** The decimal digits of [z], least significant first, [n] of them. *)
Definition lu_digit (r : N) (t : Decimal.uint) : Decimal.uint :=
  if (r =? 0)%N then Decimal.D0 t else if (r =? 1)%N then Decimal.D1 t
  else if (r =? 2)%N then Decimal.D2 t else if (r =? 3)%N then Decimal.D3 t
  else if (r =? 4)%N then Decimal.D4 t else if (r =? 5)%N then Decimal.D5 t
  else if (r =? 6)%N then Decimal.D6 t else if (r =? 7)%N then Decimal.D7 t
  else if (r =? 8)%N then Decimal.D8 t else Decimal.D9 t.

Fixpoint lu_of (n : nat) (z : N) : Decimal.uint :=
  match n with
  | O => Decimal.Nil
  | S n' => lu_digit (z mod 10) (lu_of n' (z / 10))
  end.

(** Two servers, the first of weight 0. *)
Definition idle_server_set : Ketama :=
  {| numpoints := 0; numservers := 2; memory := 1; continuum := None;
     servers := [ {| addr := "a:1"; sinfo_memory := 0 |};
                  {| addr := "b:1"; sinfo_memory := 1 |} ] |}.

(** A sorted ring of two points on either side of the hash of ["key"]. *)
Definition wide_ring : Ketama :=
  {| numpoints := 2; numservers := 2; memory := 2;
     continuum := Some [ {| point := 1000000000; ip := "a:1" |};
                         {| point := 3000000000; ip := "b:1" |} ];
     servers := [ {| addr := "b:1"; sinfo_memory := 1 |};
                  {| addr := "a:1"; sinfo_memory := 1 |} ] |}.

(** A server whose address fills [char addr[22]]. *)
Definition widest_server : serverinfo :=
  {| addr := "255.255.255.255:65535"; sinfo_memory := 1 |}.

(** * Properties *)

(** ** The digest model *)

(** The test suite of RFC 1321, section A.5, in part: messages that pad to
    one block and to two. *)
Lemma md5_test_suite :
  MD5.hex (MD5.md5 EmptyString) = "d41d8cd98f00b204e9800998ecf8427e"%string /\
  MD5.hex (MD5.md5 "abc") = "900150983cd24fb0d6963f7d28e17f72"%string /\
  MD5.hex (MD5.md5 "message digest")
    = "f96b697d7cb7938d525a2f31aaf161d0"%string /\
  MD5.hex (MD5.md5 ("1234567890123456789012345678901234567890" ++
                    "1234567890123456789012345678901234567890"))
    = "57edf4a22be3c955ac49da2e2107b67a"%string.
Proof. repeat split; vm_compute; reflexivity. Qed.

Lemma md5_length s : List.length (MD5.md5 s) = 16%nat.
Proof.
  unfold MD5.md5.
  destruct (MD5.process_blocks _ _ _) as [[[a b] c] d].
  rewrite length_map, !length_app. reflexivity.
Qed.

(** ** The monad *)

Lemma bind_done {A B} (m : M A) (f : A -> M B) k b k' :
  bind m f k = Done (b, k') ->
  exists a k1, m k = Done (a, k1) /\ f a k1 = Done (b, k').
Proof.
  unfold bind. destruct (m k) as [[a k1]| | |]; try discriminate.
  intros H. exists a, k1. split; [reflexivity|exact H].
Qed.

Lemma bind_eval {A B} (m : M A) (f : A -> M B) k a k1 :
  m k = Done (a, k1) -> bind m f k = f a k1.
Proof. intros H. unfold bind. rewrite H. reflexivity. Qed.

(** ** Reading the ring *)

Lemma ring_nth st i m :
  nth_error (ring st) i = Some m ->
  exists arr, continuum st = Some arr /\ nth_error arr i = Some m.
Proof.
  unfold ring. destruct (continuum st) as [arr|].
  - intros H. exists arr. split; [reflexivity|].
    assert (Hi : (i < List.length (firstn (Z.to_nat (numpoints st)) arr))%nat).
    { apply nth_error_Some. rewrite H. discriminate. }
    rewrite length_firstn in Hi.
    rewrite nth_error_firstn in H.
    destruct (Nat.ltb_spec i (Z.to_nat (numpoints st))); [exact H|lia].
  - destruct i; discriminate.
Qed.

Lemma holds_ring_nth st i :
  holds_ring st -> 0 <= i < numpoints st ->
  exists m, nth_error (ring st) (Z.to_nat i) = Some m.
Proof.
  unfold holds_ring. intros H Hi.
  destruct (nth_error (ring st) (Z.to_nat i)) as [m|] eqn:E.
  - exists m. reflexivity.
  - apply nth_error_None in E. lia.
Qed.

Lemma load_point_ring st i m :
  0 <= i -> nth_error (ring st) (Z.to_nat i) = Some m ->
  load_point i st = Done (point m, st).
Proof.
  intros Hi H. destruct (ring_nth _ _ _ H) as (arr & Ha & Hn).
  unfold load_point. rewrite Ha.
  destruct (Z.ltb_spec i 0); [lia|]. rewrite Hn. reflexivity.
Qed.

Lemma sorted_le r :
  sorted r ->
  forall j i a b, (i <= j)%nat ->
    nth_error r i = Some a -> nth_error r j = Some b -> point a <= point b.
Proof.
  intros Hs. induction j as [|j IH]; intros i a b Hij Ha Hb.
  - assert (i = 0%nat) by lia. subst. rewrite Ha in Hb. inversion Hb. lia.
  - destruct (Nat.eq_dec i (S j)) as [->|Hne].
    + rewrite Ha in Hb. inversion Hb. lia.
    + assert (Hj : exists c, nth_error r j = Some c).
      { destruct (nth_error r j) as [c|] eqn:E; [eauto|].
        apply nth_error_None in E.
        assert (nth_error r (S j) <> None) by (rewrite Hb; discriminate).
        apply nth_error_Some in H. lia. }
      destruct Hj as (c & Hc).
      specialize (IH i a c ltac:(lia) Ha Hc).
      specialize (Hs j c b Hc Hb). lia.
Qed.

Lemma sortedb_sorted r : sortedb r = true -> sorted r.
Proof.
  induction r as [|a r IH]; intros H i x y Hx Hy.
  - destruct i; discriminate.
  - destruct r as [|b r'].
    + destruct i; simpl in Hy; [discriminate|destruct i; discriminate].
    + simpl in H. apply andb_true_iff in H. destruct H as [Hab Hr].
      destruct i as [|i].
      * simpl in Hx, Hy. inversion Hx; inversion Hy; subst. lia.
      * simpl in Hx. apply (IH Hr i); assumption.
Qed.

(** [ketama_compare], handed to [qsort], would order by position. *)
Lemma ketama_compare_le a b : ketama_compare a b <= 0 <-> point a <= point b.
Proof.
  unfold ketama_compare.
  destruct (Z.ltb_spec (point a) (point b));
    [|destruct (Z.ltb_spec (point b) (point a))]; lia.
Qed.

(** ** One iteration of the search *)

Lemma midpoint_between lowp highp :
  lowp <= highp -> lowp <= Z.quot (lowp + highp) 2 <= highp.
Proof. intros H. Z.to_euclidean_division_equations. lia. Qed.

Lemma midpoint_reversed lowp highp :
  highp < lowp -> highp <= Z.quot (lowp + highp) 2 <= lowp.
Proof. intros H. Z.to_euclidean_division_equations. lia. Qed.

Lemma load_point_state i st v st' :
  load_point i st = Done (v, st') -> st' = st.
Proof.
  unfold load_point. destruct (continuum st); [|discriminate].
  destruct (i <? 0); [discriminate|].
  destruct (nth_error l (Z.to_nat i)); [|discriminate].
  intros H. inversion H. reflexivity.
Qed.

(** What a returning iteration has done: no overflow in the midpoint, and
    either the midpoint is [numpoints] or both reads succeeded. *)
Lemma iteration_inv h lowp highp st r st' :
  get_server_iteration h lowp highp st = Done (r, st') ->
  let midp := Z.quot (lowp + highp) 2 in
  st' = st /\ in_int (lowp + highp) = true /\
  ((midp = numpoints st /\ r = Return 0) \/
   (midp <> numpoints st /\
    exists midval midval1,
      load_point midp st = Done (midval, st) /\
      (if midp =? 0 then midval1 = 0
       else load_point (midp - 1) st = Done (midval1, st)) /\
      r = search_branch h lowp highp midp midval midval1)).
Proof.
  intros H. cbv zeta. unfold get_server_iteration in H.
  apply bind_done in H. destruct H as (sum & k1 & Hsum & H).
  unfold int_add in Hsum.
  destruct (in_int (lowp + highp)) eqn:Hin; [|discriminate].
  unfold ret in Hsum. inversion Hsum; subst sum k1. clear Hsum.
  apply bind_done in H. destruct H as (np & k1 & Hnp & H).
  unfold load in Hnp. inversion Hnp; subst np k1. clear Hnp.
  remember (Z.quot (lowp + highp) 2) as midp eqn:Hmid. clear Hmid.
  destruct (Z.eqb_spec midp (numpoints st)) as [E|E].
  - unfold ret in H. injection H as Hr Hst. subst r st'. split; [reflexivity|].
    split; [reflexivity|]. left. split; [exact E|reflexivity].
  - apply bind_done in H. destruct H as (midval & k1 & Hmv & H).
    pose proof (load_point_state _ _ _ _ Hmv); subst k1.
    apply bind_done in H. destruct H as (midval1 & k1 & Hmv1 & H).
    unfold ret in H. injection H as Hr Hst. subst r k1.
    case_eq (midp =? 0); intros E0; rewrite E0 in Hmv1.
    + unfold ret in Hmv1. injection Hmv1 as Hv Hst. subst midval1 st'.
      split; [reflexivity|]. split; [reflexivity|]. right. split; [exact E|].
      exists midval, 0. auto.
    + pose proof (load_point_state _ _ _ _ Hmv1) as Hst. subst st'.
      split; [reflexivity|]. split; [reflexivity|]. right. split; [exact E|].
      exists midval, midval1. auto.
Qed.

Lemma iteration_at_end h lowp highp st :
  in_int (lowp + highp) = true ->
  Z.quot (lowp + highp) 2 = numpoints st ->
  get_server_iteration h lowp highp st = Done (Return 0, st).
Proof.
  intros Hin E. unfold get_server_iteration, int_add, bind, load, ret.
  rewrite Hin, E, Z.eqb_refl. reflexivity.
Qed.

Lemma iteration_eval h lowp highp st midval midval1 :
  in_int (lowp + highp) = true ->
  let midp := Z.quot (lowp + highp) 2 in
  midp <> numpoints st ->
  load_point midp st = Done (midval, st) ->
  (if midp =? 0 then midval1 = 0
   else load_point (midp - 1) st = Done (midval1, st)) ->
  get_server_iteration h lowp highp st =
  Done (search_branch h lowp highp midp midval midval1, st).
Proof.
  intros Hin midp E Hmv Hmv1.
  unfold get_server_iteration, int_add. rewrite Hin.
  unfold bind at 1. unfold ret at 1. unfold bind at 1. unfold load at 1.
  fold midp. destruct (Z.eqb_spec midp (numpoints st)); [contradiction|].
  rewrite (bind_eval _ _ _ _ _ Hmv).
  destruct (midp =? 0).
  - subst midval1. reflexivity.
  - rewrite (bind_eval _ _ _ _ _ Hmv1). reflexivity.
Qed.

Lemma search_branch_shrinks h lowp highp midval midval1 lowp' highp' :
  search_branch h lowp highp (Z.quot (lowp + highp) 2) midval midval1
    = Continue lowp' highp' ->
  lowp <= lowp' /\ highp' <= highp /\ 0 <= highp' - lowp' < highp - lowp.
Proof.
  unfold search_branch. set (midp := Z.quot (lowp + highp) 2).
  destruct ((h <=? midval) && (midval1 <? h)); [discriminate|].
  destruct (midval <? h).
  - destruct (Z.ltb_spec highp (midp + 1)); [discriminate|].
    intros E. inversion E; subst.
    destruct (Z_le_gt_dec lowp highp') as [l|l].
    + pose proof (midpoint_between lowp highp' l) as Hm. fold midp in Hm. lia.
    + pose proof (midpoint_reversed lowp highp' ltac:(lia)) as Hm.
      fold midp in Hm. lia.
  - destruct (Z.ltb_spec (midp - 1) lowp); [discriminate|].
    intros E. inversion E; subst.
    destruct (Z_le_gt_dec lowp' highp) as [l|l].
    + pose proof (midpoint_between lowp' highp l) as Hm. fold midp in Hm. lia.
    + pose proof (midpoint_reversed lowp' highp ltac:(lia)) as Hm.
      fold midp in Hm. lia.
Qed.

Lemma iteration_shrinks h lowp highp st lowp' highp' st' :
  get_server_iteration h lowp highp st = Done (Continue lowp' highp', st') ->
  lowp <= lowp' /\ highp' <= highp /\
  0 <= highp' - lowp' < highp - lowp.
Proof.
  intros H. apply iteration_inv in H.
  destruct H as (_ & _ & [[_ H]|(_ & mv & mv1 & _ & _ & H)]).
  - discriminate.
  - symmetry in H. apply search_branch_shrinks in H. exact H.
Qed.

(** ** The loop *)

Lemma loop_state fuel : forall h lowp highp st p st',
  get_server_loop fuel h lowp highp st = Done (p, st') -> st' = st.
Proof.
  induction fuel as [|fuel IH]; intros h lowp highp st p st' H.
  - discriminate.
  - simpl in H. apply bind_done in H. destruct H as (it & k1 & Hit & H).
    apply iteration_inv in Hit. destruct Hit as (-> & _).
    destruct it as [q|l' h'].
    + unfold ret in H. inversion H. reflexivity.
    + eapply IH. exact H.
Qed.

Lemma bind_fuel {A B} (m : M A) (f : A -> M B) k :
  m k <> OutOfFuel -> (forall a k1, f a k1 <> OutOfFuel) ->
  bind m f k <> OutOfFuel.
Proof.
  intros Hm Hf. unfold bind.
  destruct (m k) as [[a k1]| | |]; try discriminate; [apply Hf|contradiction].
Qed.

Lemma load_point_fuel i k : load_point i k <> OutOfFuel.
Proof.
  unfold load_point. destruct (continuum k); [|discriminate].
  destruct (i <? 0); [discriminate|].
  destruct (nth_error l (Z.to_nat i)); discriminate.
Qed.

Lemma iteration_not_out_of_fuel h lowp highp st :
  get_server_iteration h lowp highp st <> OutOfFuel.
Proof.
  unfold get_server_iteration. apply bind_fuel.
  - unfold int_add. destruct (in_int (lowp + highp)); discriminate.
  - intros s k1. apply bind_fuel; [discriminate|]. intros np k2.
    destruct (Z.quot s 2 =? np); [discriminate|].
    apply bind_fuel; [apply load_point_fuel|]. intros mv k3.
    apply bind_fuel; [|discriminate].
    destruct (Z.quot s 2 =? 0); [discriminate|apply load_point_fuel].
Qed.

(** The iteration budget is never what stops the loop. *)
Lemma get_server_loop_fuel fuel : forall h lowp highp st,
  (0 < fuel)%nat -> highp - lowp < Z.of_nat fuel ->
  get_server_loop fuel h lowp highp st <> OutOfFuel.
Proof.
  induction fuel as [|fuel IH]; intros h lowp highp st Hpos Hf; [lia|].
  simpl. unfold bind.
  destruct (get_server_iteration h lowp highp st) as [[it k1]| | |] eqn:Hit;
    try discriminate.
  - destruct it as [q|l' h']; [discriminate|].
    apply iteration_shrinks in Hit. apply IH; lia.
  - exfalso. exact (iteration_not_out_of_fuel _ _ _ _ Hit).
Qed.
Lemma loop_step fuel h lowp highp st it :
  get_server_iteration h lowp highp st = Done (it, st) ->
  get_server_loop (S fuel) h lowp highp st =
  match it with
  | Return p => Done (p, st)
  | Continue lowp' highp' => get_server_loop fuel h lowp' highp' st
  end.
Proof.
  intros H. simpl. rewrite (bind_eval _ _ _ _ _ H). destruct it; reflexivity.
Qed.

Lemma search_branch_return h lowp highp midp midval midval1 p :
  search_branch h lowp highp midp midval midval1 = Return p ->
  p = midp \/ p = 0.
Proof.
  unfold search_branch.
  destruct ((h <=? midval) && (midval1 <? h)).
  - intros H. inversion H. auto.
  - destruct (_ <? _); intros H; inversion H. auto.
Qed.

Lemma in_int_sum lowp highp n :
  0 <= lowp -> lowp <= highp -> highp <= n -> n < SEARCH_LIMIT ->
  in_int (lowp + highp) = true.
Proof.
  unfold in_int, SEARCH_LIMIT, INT_MIN, INT_MAX. intros.
  apply andb_true_iff. split; apply Z.leb_le; lia.
Qed.

(** The two reads of an iteration whose midpoint is inside the ring. *)
Lemma ring_reads st midp :
  holds_ring st -> 0 <= midp < numpoints st ->
  exists m midval1,
    nth_error (ring st) (Z.to_nat midp) = Some m /\
    load_point midp st = Done (point m, st) /\
    (if midp =? 0 then midval1 = 0
     else load_point (midp - 1) st = Done (midval1, st)) /\
    (midp <> 0 ->
     exists m1, nth_error (ring st) (Z.to_nat (midp - 1)) = Some m1 /\
                midval1 = point m1).
Proof.
  intros Hr Hm.
  destruct (holds_ring_nth st midp Hr Hm) as (m & Hnth).
  destruct (Z.eqb_spec midp 0) as [E|E].
  - exists m, 0. repeat split; auto.
    + apply load_point_ring; [lia|exact Hnth].
    + intros C. contradiction.
  - destruct (holds_ring_nth st (midp - 1) Hr ltac:(lia)) as (m1 & Hnth1).
    exists m, (point m1). repeat split; auto.
    + apply load_point_ring; [lia|exact Hnth].
    + apply load_point_ring; [lia|exact Hnth1].
    + intros _. exists m1. auto.
Qed.

(** On a ring within the search limit the loop returns an index of the
    ring, whatever the positions are. *)
Lemma search_total st h :
  holds_ring st -> numpoints st < SEARCH_LIMIT ->
  forall fuel lowp highp,
    0 <= lowp -> lowp <= highp -> highp <= numpoints st ->
    highp - lowp < Z.of_nat fuel ->
    exists p, get_server_loop fuel h lowp highp st = Done (p, st) /\
              0 <= p /\ (0 < numpoints st -> p < numpoints st).
Proof.
  intros Hr Hlim. induction fuel as [|fuel IH]; intros lowp highp H0 Hlh Hn Hf.
  - lia.
  - pose proof (in_int_sum lowp highp _ H0 Hlh Hn Hlim) as Hin.
    pose proof (midpoint_between lowp highp Hlh) as Hmid.
    destruct (Z.eq_dec (Z.quot (lowp + highp) 2) (numpoints st)) as [E|E].
    + exists 0. rewrite (loop_step _ _ _ _ _ _ (iteration_at_end h _ _ _ Hin E)).
      split; [reflexivity|lia].
    + destruct (ring_reads st (Z.quot (lowp + highp) 2) Hr ltac:(lia))
        as (m & mv1 & Hnth & Hld & Hld1 & _).
      pose proof (iteration_eval h lowp highp st (point m) mv1 Hin E Hld Hld1)
        as Hit.
      cbv zeta in Hit. rewrite (loop_step _ _ _ _ _ _ Hit).
      destruct (search_branch h lowp highp (Z.quot (lowp + highp) 2)
                  (point m) mv1) as [p|l' h'] eqn:Hb.
      * exists p. split; [reflexivity|].
        apply search_branch_return in Hb. lia.
      * apply search_branch_shrinks in Hb. apply IH; lia.
Qed.

(** On a sorted ring the loop keeps the successor of [h] between [lowp]
    and [highp] and returns it. *)
Lemma search_sorted st h :
  holds_ring st -> numpoints st < SEARCH_LIMIT -> sorted (ring st) ->
  forall fuel lowp highp,
    0 <= lowp -> lowp <= highp -> highp <= numpoints st ->
    highp - lowp < Z.of_nat fuel ->
    (forall j m, (j < Z.to_nat lowp)%nat ->
                 nth_error (ring st) j = Some m -> point m < h) ->
    (highp < numpoints st ->
     exists m, nth_error (ring st) (Z.to_nat highp) = Some m /\ h <= point m) ->
    exists p, get_server_loop fuel h lowp highp st = Done (p, st) /\
              is_successor (ring st) h p.
Proof.
  intros Hr Hlim Hs.
  induction fuel as [|fuel IH]; intros lowp highp H0 Hlh Hn Hf Hlow Hhigh.
  - lia.
  - pose proof (in_int_sum lowp highp _ H0 Hlh Hn Hlim) as Hin.
    pose proof (midpoint_between lowp highp Hlh) as Hmid.
    set (midp := Z.quot (lowp + highp) 2) in *.
    destruct (Z.eq_dec midp (numpoints st)) as [E|E].
    + exists 0. rewrite (loop_step _ _ _ _ _ _ (iteration_at_end h _ _ _ Hin E)).
      split; [reflexivity|]. right. split; [reflexivity|].
      intros m Hm. apply In_nth_error in Hm. destruct Hm as (j & Hj).
      apply (Hlow j m); [|exact Hj].
      assert (j < List.length (ring st))%nat
        by (apply nth_error_Some; rewrite Hj; discriminate).
      assert (2 * midp <= lowp + highp)
        by (unfold midp; Z.to_euclidean_division_equations; lia).
      unfold holds_ring in Hr. lia.
    + destruct (ring_reads st midp Hr ltac:(lia))
        as (m & mv1 & Hnth & Hld & Hld1 & Hprev).
      pose proof (iteration_eval h lowp highp st (point m) mv1 Hin E Hld Hld1)
        as Hit.
      cbv zeta in Hit. fold midp in Hit. rewrite (loop_step _ _ _ _ _ _ Hit).
      unfold search_branch.
      destruct (Z.leb_spec h (point m)) as [Hle|Hgt];
        destruct (Z.ltb_spec mv1 h) as [Hp|Hp]; cbn [andb].
      * (* the match *)
        exists midp. split; [reflexivity|]. left. exists m.
        repeat split; [exact Hnth|lia|exact Hle|].
        intros j m' Hj Hm'.
        destruct (Z.eq_dec midp 0) as [Z0|Z0]; [lia|].
        destruct (Hprev Z0) as (m1 & Hm1 & ->).
        pose proof (sorted_le _ Hs (Z.to_nat (midp - 1)) j m' m1
                      ltac:(lia) Hm' Hm1). lia.
      * (* the successor is to the left *)
        destruct (Z.ltb_spec (point m) h); [lia|].
        destruct (Z.eq_dec midp 0) as [Z0|Z0].
        -- destruct (Z.ltb_spec (midp - 1) lowp); [|lia].
           exists 0. split; [reflexivity|]. left. exists m.
           rewrite Z0 in Hnth. repeat split; [exact Hnth|lia|exact Hle|].
           intros j m' Hj. simpl in Hj. lia.
        -- destruct (Hprev Z0) as (m1 & Hm1 & ->).
           destruct (Z.ltb_spec (midp - 1) lowp) as [Hc|Hc].
           ++ exfalso.
              assert (Hlt : point m1 < h)
                by (apply (Hlow (Z.to_nat (midp - 1))); [lia|exact Hm1]).
              lia.
           ++ apply IH; try lia.
              ** exact Hlow.
              ** intros _. exists m1. split; [exact Hm1|exact Hp].
      * (* the successor is to the right *)
        destruct (Z.ltb_spec (point m) h); [|lia].
        destruct (Z.ltb_spec highp (midp + 1)) as [Hc|Hc].
        -- exfalso. assert (midp = highp) by lia.
           destruct (Hhigh ltac:(lia)) as (m' & Hm' & Hle').
           replace highp with midp in Hm' by lia.
           assert (m' = m) by congruence. subst m'. lia.
        -- apply IH; try lia.
           ++ intros j m' Hj Hm'.
              pose proof (sorted_le _ Hs (Z.to_nat midp) j m' m
                            ltac:(lia) Hm' Hnth). lia.
           ++ exact Hhigh.
      * destruct (Z.ltb_spec (point m) h); [|lia].
        destruct (Z.ltb_spec highp (midp + 1)) as [Hc|Hc].
        -- exfalso. assert (midp = highp) by lia.
           destruct (Hhigh ltac:(lia)) as (m' & Hm' & Hle').
           replace highp with midp in Hm' by lia.
           assert (m' = m) by congruence. subst m'. lia.
        -- apply IH; try lia.
           ++ intros j m' Hj Hm'.
              pose proof (sorted_le _ Hs (Z.to_nat midp) j m' m
                            ltac:(lia) Hm' Hnth). lia.
           ++ exact Hhigh.
Qed.
Lemma get_server_for_unfold h st :
  get_server_for h st =
  get_server_loop (S (Z.to_nat (numpoints st))) h 0 (numpoints st) st.
Proof. reflexivity. Qed.

Lemma loop_fuel_irrelevant st h :
  forall fuel lowp highp p,
    get_server_loop fuel h lowp highp st = Done (p, st) ->
    forall fuel', (fuel <= fuel')%nat ->
    get_server_loop fuel' h lowp highp st = Done (p, st).
Proof.
  induction fuel as [|fuel IH]; intros lowp highp p H fuel' Hle.
  - discriminate.
  - destruct fuel' as [|fuel']; [lia|].
    simpl in H. apply bind_done in H. destruct H as (it & k1 & Hit & H).
    pose proof (iteration_inv _ _ _ _ _ _ Hit) as Hst.
    cbv zeta in Hst. destruct Hst as (-> & _).
    rewrite (loop_step _ _ _ _ _ _ Hit).
    destruct it as [q|l' h'].
    + exact H.
    + apply (IH _ _ _ H). lia.
Qed.

Lemma holds_ring_nonneg st : holds_ring st -> 0 <= numpoints st.
Proof. unfold holds_ring. lia. Qed.

Lemma get_server_for_total st h :
  holds_ring st -> numpoints st < SEARCH_LIMIT ->
  exists p, get_server_for h st = Done (p, st) /\
            0 <= p /\ (0 < numpoints st -> p < numpoints st).
Proof.
  intros Hr Hlim. rewrite get_server_for_unfold.
  pose proof (holds_ring_nonneg _ Hr).
  apply search_total; try assumption; lia.
Qed.

Lemma get_server_for_successor st h :
  holds_ring st -> numpoints st < SEARCH_LIMIT -> sorted (ring st) ->
  exists p, get_server_for h st = Done (p, st) /\ is_successor (ring st) h p.
Proof.
  intros Hr Hlim Hs. rewrite get_server_for_unfold.
  pose proof (holds_ring_nonneg _ Hr).
  apply search_sorted; try assumption; lia.
Qed.

(** The successor index, in the words of the lookup contract. *)
Lemma successor_smallest r h p :
  sorted r -> r <> [] -> is_successor r h p ->
  exists m, nth_error r (Z.to_nat p) = Some m /\
    ((exists m', In m' r /\ h <= point m') ->
     h <= point m /\
     forall m', In m' r -> h <= point m' -> point m <= point m') /\
    ((forall m', In m' r -> point m' < h) -> p = 0).
Proof.
  intros Hs Hne [(m & Hm & Hp & Hle & Hbelow)|(-> & Hall)].
  - exists m. split; [exact Hm|]. split.
    + intros _. split; [exact Hle|]. intros m' Hin Hle'.
      apply In_nth_error in Hin. destruct Hin as (j & Hj).
      destruct (Nat.lt_ge_cases j (Z.to_nat p)) as [Hlt|Hge].
      * specialize (Hbelow j m' Hlt Hj). lia.
      * apply (sorted_le r Hs j (Z.to_nat p)); assumption.
    + intros Hall. apply nth_error_In in Hm. specialize (Hall m Hm). lia.
  - destruct r as [|m r]; [contradiction|]. exists m. split; [reflexivity|].
    split; [|reflexivity].
    intros (m' & Hin & Hle). specialize (Hall m' Hin). lia.
Qed.

(** ** The ring of [INT_MAX] points *)

Lemma huge_ring_continuum :
  continuum huge_ring =
  Some (repeat {| point := 0; ip := "h:1" |} (Z.to_nat INT_MAX)).
Proof. reflexivity. Qed.

Lemma huge_ring_numpoints : numpoints huge_ring = INT_MAX.
Proof. reflexivity. Qed.

Lemma huge_ring_ring :
  ring huge_ring = repeat {| point := 0; ip := "h:1" |} (Z.to_nat INT_MAX).
Proof.
  unfold ring. rewrite huge_ring_continuum, huge_ring_numpoints.
  apply firstn_all2. rewrite repeat_length. apply Nat.le_refl.
Qed.

Lemma huge_ring_holds : holds_ring huge_ring.
Proof.
  unfold holds_ring. rewrite huge_ring_ring, huge_ring_numpoints.
  rewrite repeat_length. apply Z2Nat.id. discriminate.
Qed.

Lemma huge_ring_entries i m :
  nth_error (ring huge_ring) i = Some m -> point m = 0.
Proof.
  rewrite huge_ring_ring. intros H. apply nth_error_In in H.
  apply repeat_spec in H. rewrite H. reflexivity.
Qed.

Lemma huge_ring_sorted : sorted (ring huge_ring).
Proof.
  intros i a b Ha Hb.
  rewrite (huge_ring_entries _ _ Ha), (huge_ring_entries _ _ Hb).
  apply Z.le_refl.
Qed.

Lemma huge_ring_nonempty : ring huge_ring <> [].
Proof.
  intros E. pose proof huge_ring_holds as H. unfold holds_ring in H.
  rewrite E, huge_ring_numpoints in H. discriminate H.
Qed.

Lemma huge_ring_load i :
  0 <= i < INT_MAX -> load_point i huge_ring = Done (0, huge_ring).
Proof.
  intros Hi. rewrite <- huge_ring_numpoints in Hi.
  destruct (holds_ring_nth huge_ring i huge_ring_holds Hi) as (m & Hm).
  rewrite (load_point_ring _ _ _ (proj1 Hi) Hm).
  rewrite (huge_ring_entries _ _ Hm). reflexivity.
Qed.

Lemma iteration_overflow h lowp highp st :
  in_int (lowp + highp) = false ->
  get_server_iteration h lowp highp st = Undefined.
Proof.
  intros H. unfold get_server_iteration, int_add. rewrite H. reflexivity.
Qed.

(** First iteration on the huge ring: the midpoint is 1073741823, its
    position 0 is below [h], and [lowp] moves to 1073741824. *)
Lemma huge_ring_first h :
  0 < h ->
  get_server_iteration h 0 INT_MAX huge_ring =
  Done (Continue 1073741824 INT_MAX, huge_ring).
Proof.
  intros Hh.
  assert (Hin : in_int (0 + INT_MAX) = true) by reflexivity.
  assert (Hmid : Z.quot (0 + INT_MAX) 2 = 1073741823) by reflexivity.
  pose proof (iteration_eval h 0 INT_MAX huge_ring 0 0 Hin) as H.
  cbv zeta in H. rewrite Hmid in H.
  rewrite H.
  - unfold search_branch.
    destruct (Z.leb_spec h 0) as [Hc|Hc]; [exfalso; apply (Z.lt_irrefl 0);
      apply (Z.lt_le_trans _ _ _ Hh Hc)|]. cbn [andb].
    destruct (Z.ltb_spec 0 h) as [Hd|Hd]; [|exfalso; apply (Z.lt_irrefl 0);
      apply (Z.lt_le_trans _ _ _ Hh Hd)].
    reflexivity.
  - rewrite huge_ring_numpoints. discriminate.
  - apply huge_ring_load. split; [discriminate|reflexivity].
  - apply huge_ring_load. split; [discriminate|reflexivity].
Qed.

(** The second iteration adds 1073741824 and [INT_MAX]. *)
Lemma huge_ring_loop h fuel :
  0 < h ->
  get_server_loop (S (S fuel)) h 0 INT_MAX huge_ring = Undefined.
Proof.
  intros Hh. rewrite (loop_step _ _ _ _ _ _ (huge_ring_first h Hh)).
  cbn [get_server_loop]. unfold bind.
  rewrite iteration_overflow by reflexivity. reflexivity.
Qed.

Lemma huge_ring_undefined h :
  0 < h -> get_server_for h huge_ring = Undefined.
Proof.
  intros Hh. rewrite get_server_for_unfold, huge_ring_numpoints.
  replace (Z.to_nat INT_MAX) with (S (Z.to_nat (INT_MAX - 1))).
  - apply huge_ring_loop. exact Hh.
  - rewrite <- Z2Nat.inj_succ by discriminate. reflexivity.
Qed.
(** ** Fields that construction leaves alone *)

Lemma keeps_fields_refl k : keeps_fields k k.
Proof. repeat split. Qed.

Lemma keeps_fields_trans k1 k2 k3 :
  keeps_fields k1 k2 -> keeps_fields k2 k3 -> keeps_fields k1 k3.
Proof.
  unfold keeps_fields. intros (a & b & c & d) (e & f & g & h).
  repeat split; congruence.
Qed.

Lemma preserves_ret {A} (a : A) : preserves keeps_fields (ret a).
Proof.
  intros k b k' H. unfold ret in H. injection H as _ <-.
  apply keeps_fields_refl.
Qed.

Lemma preserves_bind {A B} (m : M A) (f : A -> M B) :
  preserves keeps_fields m -> (forall a, preserves keeps_fields (f a)) ->
  preserves keeps_fields (bind m f).
Proof.
  intros Hm Hf k b k' H. apply bind_done in H.
  destruct H as (a & k1 & H1 & H2).
  eapply keeps_fields_trans; [eapply Hm|eapply Hf]; eassumption.
Qed.

Lemma preserves_load {A} (f : Ketama -> A) : preserves keeps_fields (load f).
Proof.
  intros k b k' H. unfold load in H. injection H as _ <-.
  apply keeps_fields_refl.
Qed.

Lemma preserves_assert c : preserves keeps_fields (assert c).
Proof.
  unfold assert. destruct c; [apply preserves_ret|].
  intros k b k' H. discriminate.
Qed.

Lemma preserves_undefined {A} : preserves keeps_fields (@undefined A).
Proof. intros k b k' H. discriminate. Qed.

Lemma preserves_set_continuum c :
  preserves keeps_fields (modify (set_continuum c)).
Proof.
  intros k b k' H. unfold modify in H. injection H as _ <-. repeat split.
Qed.

Lemma preserves_store_mcs cont v : preserves keeps_fields (store_mcs cont v).
Proof.
  intros k b k' H. unfold store_mcs in H.
  destruct (continuum k); [|discriminate].
  destruct (numservers k <=? cont); [discriminate|].
  injection H as _ <-. repeat split.
Qed.

Lemma preserves_for_loop {S} (body : Z -> S -> M S) :
  (forall i s, preserves keeps_fields (body i s)) ->
  forall n i s, preserves keeps_fields (for_loop n i body s).
Proof.
  intros Hb. induction n as [|n IH]; intros i s; simpl.
  - apply preserves_ret.
  - apply preserves_bind; [apply Hb|]. intros s'. apply IH.
Qed.

Section ConstructionFrame.

Variable md5 : string -> list byte.

Lemma preserves_store_point sinfo digest h cont :
  preserves keeps_fields (store_point sinfo digest h cont).
Proof.
  unfold store_point. apply preserves_bind; [apply preserves_store_mcs|].
  intros _. apply preserves_ret.
Qed.

Lemma preserves_hash_round sinfo k cont :
  preserves keeps_fields (hash_round md5 sinfo k cont).
Proof.
  unfold hash_round. destruct (29 <? strlen (round_name sinfo k)).
  - apply preserves_undefined.
  - apply preserves_for_loop. intros i s. apply preserves_store_point.
Qed.

Lemma preserves_for_each_server l :
  forall cont, preserves keeps_fields (for_each_server md5 l cont).
Proof.
  induction l as [|sinfo l IH]; intros cont; simpl.
  - apply preserves_ret.
  - apply preserves_bind; [apply preserves_load|]. intros total.
    apply preserves_bind; [apply preserves_load|]. intros n.
    destruct (hash_rounds (sinfo_memory sinfo) total n) as [ks|].
    + apply preserves_bind.
      * apply preserves_for_loop. intros i s. apply preserves_hash_round.
      * intros cont'. apply IH.
    + apply preserves_undefined.
Qed.

Lemma preserves_create :
  preserves keeps_fields (Ketama_create_continuum md5).
Proof.
  unfold Ketama_create_continuum.
  apply preserves_bind; [apply preserves_load|]. intros n.
  apply preserves_bind; [apply preserves_assert|]. intros _.
  apply preserves_bind; [apply preserves_load|]. intros c.
  apply preserves_bind; [apply preserves_assert|]. intros _.
  apply preserves_bind; [apply preserves_set_continuum|]. intros _.
  apply preserves_bind; [apply preserves_load|]. intros l.
  apply preserves_bind; [apply preserves_for_each_server|]. intros _.
  apply preserves_ret.
Qed.

End ConstructionFrame.

Section ServerSetFrame.

Variable list_add : serverinfo -> list serverinfo -> list serverinfo.

Lemma add_server_numpoints a port weight k u k' :
  Ketama_add_server list_add a port weight k = Done (u, k') ->
  numpoints k' = numpoints k /\ continuum k' = continuum k.
Proof.
  unfold Ketama_add_server.
  destruct (21 <? strlen _); [discriminate|].
  unfold modify. intros H. injection H as _ <-. split; reflexivity.
Qed.

Lemma add_servers_numpoints calls : forall k u k',
  add_servers list_add calls k = Done (u, k') ->
  numpoints k' = numpoints k /\ continuum k' = continuum k.
Proof.
  induction calls as [|[[a port] weight] calls IH]; intros k u k' H.
  - simpl in H. unfold ret in H. injection H as _ <-. split; reflexivity.
  - simpl in H. apply bind_done in H. destruct H as (x & k1 & H1 & H2).
    apply add_server_numpoints in H1. apply IH in H2.
    destruct H1, H2. split; congruence.
Qed.

End ServerSetFrame.
(** ** The entries construction writes *)

Lemma hash_rounds_range mem total n ks :
  hash_rounds mem total n = Some ks -> 0 <= ks < 4294967296.
Proof.
  unfold hash_rounds, uint_of_float.
  destruct (floorf _) as [s|s| |s m e].
  - intros H. injection H as <-. lia.
  - discriminate.
  - discriminate.
  - match goal with
    | |- context [if (0 <=? ?v) && (?v <? 4294967296) then _ else _] =>
        destruct (Z.leb_spec 0 v) as [Ha|Ha];
        destruct (Z.ltb_spec v 4294967296) as [Hb|Hb];
        cbn [andb]; try discriminate
    end.
    intros H. injection H as <-. lia.
Qed.

Lemma to_uint_small z : 0 <= z < 4294967296 -> to_uint z = z.
Proof. intros H. unfold to_uint. apply Z.mod_small. exact H. Qed.

Lemma set_continuum_twice c1 c2 k :
  set_continuum c2 (set_continuum c1 k) = set_continuum c2 k.
Proof. reflexivity. Qed.

Lemma bind_undefined {A B} (m : M A) (f : A -> M B) k :
  m k = Undefined -> bind m f k = Undefined.
Proof. intros H. unfold bind. rewrite H. reflexivity. Qed.

(** A store inside the block appends the entry. *)
Lemma store_mcs_append cont v k arr :
  continuum k = Some arr -> cont = Z.of_nat (List.length arr) ->
  cont < numservers k ->
  store_mcs cont v k = Done (tt, set_continuum (Some (arr ++ [v])) k).
Proof.
  intros Hc -> Hb. unfold store_mcs. rewrite Hc.
  destruct (Z.leb_spec (numservers k) (Z.of_nat (List.length arr))); [lia|].
  rewrite Nat2Z.id, firstn_all, skipn_all2 by lia. reflexivity.
Qed.

(** A store past the last entry of the block. *)
Lemma store_mcs_outside cont v k :
  numservers k <= cont -> store_mcs cont v k = Undefined.
Proof.
  intros H. unfold store_mcs. destruct (continuum k); [|reflexivity].
  destruct (Z.leb_spec (numservers k) cont); [reflexivity|lia].
Qed.

Section ConstructionSpec.

Variable md5 : string -> list byte.

Lemma store_point_append sinfo digest h cont k arr :
  continuum k = Some arr -> cont = Z.of_nat (List.length arr) ->
  cont + 1 < 4294967296 -> cont < numservers k ->
  store_point sinfo digest h cont k =
  Done (cont + 1,
        set_continuum
          (Some (arr ++ [{| point := continuum_point digest h;
                            ip := addr sinfo |}])) k).
Proof.
  intros Hc Hl Hb Hin. unfold store_point.
  rewrite (bind_eval _ _ _ _ _ (store_mcs_append _ _ _ _ Hc Hl Hin)).
  unfold ret. rewrite to_uint_small by lia. reflexivity.
Qed.

Lemma store_point_outside sinfo digest h cont k :
  numservers k <= cont -> store_point sinfo digest h cont k = Undefined.
Proof.
  intros H. unfold store_point. apply bind_undefined.
  apply store_mcs_outside. exact H.
Qed.

Lemma hash_round_append sinfo kk cont k arr :
  continuum k = Some arr -> cont = Z.of_nat (List.length arr) ->
  cont + 4 < 4294967296 ->
  strlen (round_name sinfo kk) <= 29 ->
  cont + 4 <= numservers k ->
  hash_round md5 sinfo kk cont k =
  Done (cont + 4,
        set_continuum (Some (arr ++ round_points md5 sinfo kk)) k).
Proof.
  intros Hc Hl Hb Hn Hin. unfold hash_round.
  destruct (Z.ltb_spec 29 (strlen (round_name sinfo kk))); [lia|].
  unfold ketama_md5_digest. cbn [for_loop].
  set (d := md5 (round_name sinfo kk)).
  erewrite bind_eval
    by (apply store_point_append; [exact Hc|exact Hl|lia|lia]).
  erewrite bind_eval.
  2:{ apply store_point_append;
        [reflexivity| |lia|cbn [numservers set_continuum]; lia].
      rewrite length_app; simpl; lia. }
  erewrite bind_eval.
  2:{ apply store_point_append;
        [reflexivity| |lia|cbn [numservers set_continuum]; lia].
      rewrite !length_app; simpl; lia. }
  erewrite bind_eval.
  2:{ apply store_point_append;
        [reflexivity| |lia|cbn [numservers set_continuum]; lia].
      rewrite !length_app; simpl; lia. }
  unfold ret. rewrite !set_continuum_twice.
  unfold round_points. fold d. cbn [map].
  rewrite <- !app_assoc. cbn [app].
  replace (cont + 1 + 1 + 1 + 1) with (cont + 4) by lia.
  reflexivity.
Qed.

(** A round whose four entries do not all fit the block stores those that
    fit and then one outside. *)
Lemma hash_round_outside sinfo kk cont k arr :
  continuum k = Some arr -> cont = Z.of_nat (List.length arr) ->
  cont + 4 < 4294967296 ->
  strlen (round_name sinfo kk) <= 29 ->
  numservers k < cont + 4 ->
  hash_round md5 sinfo kk cont k = Undefined.
Proof.
  intros Hc Hl Hb Hn Hout. unfold hash_round.
  destruct (Z.ltb_spec 29 (strlen (round_name sinfo kk))); [lia|].
  unfold ketama_md5_digest. cbn [for_loop].
  set (d := md5 (round_name sinfo kk)).
  destruct (Z.le_gt_cases (numservers k) cont) as [H0|H0].
  { apply bind_undefined. apply store_point_outside. exact H0. }
  erewrite bind_eval
    by (apply store_point_append; [exact Hc|exact Hl|lia|lia]).
  destruct (Z.le_gt_cases (numservers k) (cont + 1)) as [H1|H1].
  { apply bind_undefined. apply store_point_outside. exact H1. }
  erewrite bind_eval.
  2:{ apply store_point_append;
        [reflexivity| |lia|cbn [numservers set_continuum]; lia].
      rewrite length_app; simpl; lia. }
  destruct (Z.le_gt_cases (numservers k) (cont + 1 + 1)) as [H2|H2].
  { apply bind_undefined. apply store_point_outside. exact H2. }
  erewrite bind_eval.
  2:{ apply store_point_append;
        [reflexivity| |lia|cbn [numservers set_continuum]; lia].
      rewrite !length_app; simpl; lia. }
  apply bind_undefined. apply store_point_outside.
  cbn [numservers set_continuum]. lia.
Qed.

Lemma rounds_append sinfo :
  forall n s cont k arr,
    continuum k = Some arr -> cont = Z.of_nat (List.length arr) ->
    cont + 4 * Z.of_nat n < 4294967296 ->
    forallb (fun j => strlen (round_name sinfo j) <=? 29)
            (map Z.of_nat (seq s n)) = true ->
    cont + 4 * Z.of_nat n <= numservers k ->
    for_loop n (Z.of_nat s) (hash_round md5 sinfo) cont k =
    Done (cont + 4 * Z.of_nat n,
          set_continuum
            (Some (arr ++ flat_map (round_points md5 sinfo)
                                   (map Z.of_nat (seq s n)))) k).
Proof.
  induction n as [|n IH]; intros s cont k arr Hc Hl Hb Hn Hin.
  - simpl. unfold ret. rewrite app_nil_r, Z.add_0_r.
    destruct k. unfold set_continuum. simpl in *. rewrite Hc. reflexivity.
  - cbn [seq map forallb] in Hn. apply andb_true_iff in Hn.
    destruct Hn as [Hn1 Hn2]. apply Z.leb_le in Hn1.
    cbn [for_loop].
    erewrite bind_eval
      by (apply hash_round_append; [exact Hc|exact Hl|lia|exact Hn1|lia]).
    replace (Z.of_nat s + 1) with (Z.of_nat (S s)) by lia.
    rewrite (IH (S s) (cont + 4) _ (arr ++ round_points md5 sinfo (Z.of_nat s)));
      [|reflexivity| |lia|exact Hn2|cbn [numservers set_continuum]; lia].
    + rewrite set_continuum_twice. cbn [seq map flat_map].
      rewrite <- app_assoc.
      replace (cont + 4 + 4 * Z.of_nat n) with (cont + 4 * Z.of_nat (S n))
        by lia.
      reflexivity.
    + rewrite length_app. unfold round_points. simpl. lia.
Qed.

(** Rounds that do not all fit: the loop reaches the end of the block. *)
Lemma rounds_outside sinfo :
  forall n s cont k arr,
    continuum k = Some arr -> cont = Z.of_nat (List.length arr) ->
    cont + 4 * Z.of_nat n < 4294967296 ->
    forallb (fun j => strlen (round_name sinfo j) <=? 29)
            (map Z.of_nat (seq s n)) = true ->
    cont <= numservers k -> numservers k < cont + 4 * Z.of_nat n ->
    for_loop n (Z.of_nat s) (hash_round md5 sinfo) cont k = Undefined.
Proof.
  induction n as [|n IH]; intros s cont k arr Hc Hl Hb Hn Hle Hout.
  - lia.
  - cbn [seq map forallb] in Hn. apply andb_true_iff in Hn.
    destruct Hn as [Hn1 Hn2]. apply Z.leb_le in Hn1.
    cbn [for_loop].
    destruct (Z.le_gt_cases (cont + 4) (numservers k)) as [Hfit|Hfit].
    + erewrite bind_eval
        by (apply hash_round_append; [exact Hc|exact Hl|lia|exact Hn1|lia]).
      replace (Z.of_nat s + 1) with (Z.of_nat (S s)) by lia.
      apply (IH (S s) (cont + 4) _
                (arr ++ round_points md5 sinfo (Z.of_nat s)));
        [reflexivity| |lia|exact Hn2|cbn [numservers set_continuum]; lia
        |cbn [numservers set_continuum]; lia].
      rewrite length_app. unfold round_points. simpl. lia.
    + apply bind_undefined.
      apply (hash_round_outside sinfo _ cont k arr);
        [exact Hc|exact Hl|lia|exact Hn1|lia].
Qed.

Lemma rounds_length sinfo l :
  Z.of_nat (List.length (flat_map (round_points md5 sinfo) l)) =
  4 * Z.of_nat (List.length l).
Proof.
  induction l as [|x l IH]; [reflexivity|].
  cbn [flat_map]. rewrite length_app. cbn [List.length round_points map].
  lia.
Qed.

Lemma server_points_length sinfo ks :
  0 <= ks -> Z.of_nat (List.length (server_points md5 sinfo ks)) = 4 * ks.
Proof.
  intros H. unfold server_points.
  rewrite rounds_length, length_map, length_seq. lia.
Qed.

Lemma round_count_set_continuum c k sinfo ks :
  round_count (set_continuum c k) sinfo ks <-> round_count k sinfo ks.
Proof. reflexivity. Qed.

Lemma total_rounds_nonneg k l rounds :
  Forall2 (round_count k) l rounds -> 0 <= total_rounds rounds.
Proof.
  induction 1 as [|s ks l rounds [Hr _] _ IH]; simpl; [lia|].
  apply hash_rounds_range in Hr. lia.
Qed.

Lemma servers_append l :
  forall rounds k arr,
    continuum k = Some arr ->
    Forall2 (round_count k) l rounds ->
    Z.of_nat (List.length arr) + 4 * total_rounds rounds < 4294967296 ->
    Z.of_nat (List.length arr) + 4 * total_rounds rounds <= numservers k ->
    for_each_server md5 l (Z.of_nat (List.length arr)) k =
    Done (Z.of_nat (List.length arr) + 4 * total_rounds rounds,
          set_continuum (Some (arr ++ ring_points md5 l rounds)) k).
Proof.
  induction l as [|sinfo l IH]; intros rounds k arr Hc HF Hb Hin.
  - inversion HF; subst. simpl. unfold ret. rewrite app_nil_r, Z.add_0_r.
    destruct k. unfold set_continuum. simpl in *. rewrite Hc. reflexivity.
  - inversion HF as [|s ks l' rounds' [Hr Hn] HF']; subst.
    pose proof (hash_rounds_range _ _ _ _ Hr) as Hks.
    pose proof (total_rounds_nonneg _ _ _ HF') as Htot.
    cbn [total_rounds fold_right] in Hb, Hin.
    fold (total_rounds rounds') in Hb, Hin.
    cbn [for_each_server]. unfold bind at 1. unfold load at 1.
    unfold bind at 1. unfold load at 1. rewrite Hr.
    unfold names_fit in Hn.
    erewrite bind_eval.
    2:{ apply (rounds_append sinfo (Z.to_nat ks) 0 _ k arr Hc eq_refl);
        [lia|exact Hn|lia]. }
    replace (Z.of_nat (List.length arr) + 4 * Z.of_nat (Z.to_nat ks))
      with (Z.of_nat (List.length (arr ++ server_points md5 sinfo ks)))
      by (rewrite length_app, Nat2Z.inj_add, server_points_length by lia; lia).
    rewrite (IH rounds' _ (arr ++ server_points md5 sinfo ks));
      [|reflexivity|exact HF'| |].
    + rewrite set_continuum_twice. cbn [ring_points total_rounds fold_right].
      fold (total_rounds rounds'). rewrite <- app_assoc.
      rewrite length_app, Nat2Z.inj_add, server_points_length by lia.
      replace (Z.of_nat (List.length arr) + 4 * ks + 4 * total_rounds rounds')
        with (Z.of_nat (List.length arr) + 4 * (ks + total_rounds rounds'))
        by lia.
      reflexivity.
    + rewrite length_app, Nat2Z.inj_add, server_points_length by lia. lia.
    + rewrite length_app, Nat2Z.inj_add, server_points_length by lia.
      cbn [numservers set_continuum]. lia.
Qed.

(** The servers' entries do not all fit: the loop stores what fits and
    then one entry outside the block. *)
Lemma servers_outside l :
  forall rounds k arr,
    continuum k = Some arr ->
    Forall2 (round_count k) l rounds ->
    Z.of_nat (List.length arr) + 4 * total_rounds rounds < 4294967296 ->
    Z.of_nat (List.length arr) <= numservers k ->
    numservers k < Z.of_nat (List.length arr) + 4 * total_rounds rounds ->
    for_each_server md5 l (Z.of_nat (List.length arr)) k = Undefined.
Proof.
  induction l as [|sinfo l IH]; intros rounds k arr Hc HF Hb Hle Hout.
  - inversion HF; subst. cbn [total_rounds fold_right] in Hout. lia.
  - inversion HF as [|s ks l' rounds' [Hr Hn] HF']; subst.
    pose proof (hash_rounds_range _ _ _ _ Hr) as Hks.
    pose proof (total_rounds_nonneg _ _ _ HF') as Htot.
    cbn [total_rounds fold_right] in Hb, Hout.
    fold (total_rounds rounds') in Hb, Hout.
    cbn [for_each_server]. unfold bind at 1. unfold load at 1.
    unfold bind at 1. unfold load at 1. rewrite Hr.
    unfold names_fit in Hn.
    destruct (Z.le_gt_cases (Z.of_nat (List.length arr) + 4 * ks)
                            (numservers k)) as [Hfit|Hfit].
    + erewrite bind_eval.
      2:{ apply (rounds_append sinfo (Z.to_nat ks) 0 _ k arr Hc eq_refl);
          [lia|exact Hn|lia]. }
      replace (Z.of_nat (List.length arr) + 4 * Z.of_nat (Z.to_nat ks))
        with (Z.of_nat (List.length (arr ++ server_points md5 sinfo ks)))
        by (rewrite length_app, Nat2Z.inj_add, server_points_length by lia;
            lia).
      apply (IH rounds' _ (arr ++ server_points md5 sinfo ks));
        [reflexivity|exact HF'| | |];
        rewrite length_app, Nat2Z.inj_add, server_points_length by lia;
        cbn [numservers set_continuum]; lia.
    + apply bind_undefined.
      apply (rounds_outside sinfo (Z.to_nat ks) 0 _ k arr Hc eq_refl);
        [lia|exact Hn|exact Hle|lia].
Qed.

(** Past its two assertions, construction is the loop over the servers,
    started on an empty continuum with [cont = 0]. *)
Lemma create_continuum_body st :
  0 < numservers st -> continuum st = None ->
  Ketama_create_continuum md5 st =
  bind (for_each_server md5 (servers st) 0) (fun _ => ret tt)
       (set_continuum (Some []) st).
Proof.
  intros Hn Hc. unfold Ketama_create_continuum.
  unfold bind at 1. unfold load at 1.
  destruct (Z.ltb_spec 0 (numservers st)); [|lia].
  unfold bind at 1. unfold assert at 1. unfold ret at 1.
  unfold bind at 1. unfold load at 1. rewrite Hc.
  unfold bind at 1. unfold assert at 1. unfold is_null, ret at 1.
  unfold bind at 1. unfold modify at 1.
  unfold bind at 1. unfold load at 1. reflexivity.
Qed.

(** Construction on a server set whose round counts are defined and whose
    entries fit the block requested: the assertions pass and the continuum
    is the concatenation of the servers' rounds, in the order the servers
    are visited. *)
Lemma create_continuum_spec st rounds :
  0 < numservers st -> continuum st = None ->
  Forall2 (round_count st) (servers st) rounds ->
  4 * total_rounds rounds < 4294967296 ->
  4 * total_rounds rounds <= numservers st ->
  Ketama_create_continuum md5 st =
  Done (tt, set_continuum (Some (ring_points md5 (servers st) rounds)) st).
Proof.
  intros Hn Hc HF Hb Hin. rewrite create_continuum_body by assumption.
  erewrite bind_eval.
  2:{ apply (servers_append (servers st) rounds
               (set_continuum (Some []) st) []);
      [reflexivity|exact HF|cbn [List.length Z.of_nat]; lia
      |cbn [List.length Z.of_nat numservers set_continuum]; lia]. }
  reflexivity.
Qed.

(** The same server set when the entries do not fit the block. *)
Lemma create_continuum_outside st rounds :
  0 < numservers st -> continuum st = None ->
  Forall2 (round_count st) (servers st) rounds ->
  4 * total_rounds rounds < 4294967296 ->
  numservers st < 4 * total_rounds rounds ->
  Ketama_create_continuum md5 st = Undefined.
Proof.
  intros Hn Hc HF Hb Hout. rewrite create_continuum_body by assumption.
  apply bind_undefined.
  apply (servers_outside (servers st) rounds
           (set_continuum (Some []) st) []);
    [reflexivity|exact HF|cbn [List.length Z.of_nat]; lia
    |cbn [List.length Z.of_nat numservers set_continuum]; lia
    |cbn [List.length Z.of_nat numservers set_continuum]; lia].
Qed.

(** A server list in which every share rounds down to no round: the loop
    stores nothing. *)
Lemma servers_idle l : forall cont k,
  Forall (fun sinfo =>
            hash_rounds (sinfo_memory sinfo) (memory k) (numservers k)
            = Some 0) l ->
  for_each_server md5 l cont k = Done (cont, k).
Proof.
  induction l as [|sinfo l IH]; intros cont k H.
  - reflexivity.
  - inversion H as [|s l' Hs Hl]; subst.
    cbn [for_each_server]. unfold bind at 1. unfold load at 1.
    unfold bind at 1. unfold load at 1. rewrite Hs.
    cbn [Z.to_nat for_loop]. unfold bind at 1. unfold ret at 1.
    apply IH. exact Hl.
Qed.

End ConstructionSpec.
(** ** Byte order *)

Lemma digest_at_range digest i : 0 <= digest_at digest i < 256.
Proof.
  unfold digest_at.
  pose proof (Byte.to_N_bounded (nth (Z.to_nat i) digest x00)). lia.
Qed.

Lemma lor_disjoint a y n :
  0 <= n -> 0 <= y < 2 ^ n -> Z.lor (a * 2 ^ n) y = a * 2 ^ n + y.
Proof.
  intros Hn Hy.
  enough (Hl : Z.land (a * 2 ^ n) y = 0)
    by (pose proof (Z.add_lor_land (a * 2 ^ n) y) as E; rewrite Hl in E; lia).
  apply Z.bits_inj'. intros i Hi.
  rewrite Z.land_spec, Z.bits_0.
  destruct (Z.lt_ge_cases i n) as [Hlt|Hge].
  - rewrite Z.mul_pow2_bits_low by lia. reflexivity.
  - assert (Z.testbit y i = false) as ->.
    { destruct (Z.eq_dec y 0) as [->|Hy0]; [apply Z.bits_0|].
      apply Z.bits_above_log2; [lia|].
      apply Z.log2_lt_pow2; [lia|].
      apply Z.lt_le_trans with (2 ^ n); [lia|].
      apply Z.pow_le_mono_r; lia. }
    apply andb_false_r.
Qed.

Lemma int_shl_low b n :
  0 <= b < 256 -> 0 <= n <= 16 -> int_shl b n = b * 2 ^ n.
Proof.
  intros Hb Hn. unfold int_shl, to_int, to_uint, INT_MAX.
  rewrite Z.shiftl_mul_pow2 by lia.
  assert (0 <= b * 2 ^ n < 2 ^ 24).
  { assert (2 ^ n <= 2 ^ 16) by (apply Z.pow_le_mono_r; lia).
    assert (0 < 2 ^ n) by (apply Z.pow_pos_nonneg; lia).
    change (2 ^ 24) with (256 * 2 ^ 16). nia. }
  change (2 ^ 24) with 16777216 in H.
  rewrite Z.mod_small by lia.
  destruct (Z.leb_spec (b * 2 ^ n) 2147483647); lia.
Qed.

Lemma int_shl_high b :
  0 <= b < 256 ->
  int_shl b 24 = (if b <? 128 then b else b - 256) * 2 ^ 24.
Proof.
  intros Hb. unfold int_shl, to_int, to_uint, INT_MAX.
  rewrite Z.shiftl_mul_pow2 by lia. change (2 ^ 24) with 16777216.
  rewrite Z.mod_small by lia.
  destruct (Z.leb_spec (b * 16777216) 2147483647);
    destruct (Z.ltb_spec b 128); lia.
Qed.

(** The four bytes [b0 .. b3] of a group, assembled by the shifts and ors of
    the source and stored in an [unsigned int], give the little-endian
    word. *)
Lemma word_little_endian b0 b1 b2 b3 :
  0 <= b0 < 256 -> 0 <= b1 < 256 -> 0 <= b2 < 256 -> 0 <= b3 < 256 ->
  to_uint (Z.lor (Z.lor (Z.lor (int_shl b3 24) (int_shl b2 16))
                        (int_shl b1 8)) b0)
  = b0 + 256 * b1 + 65536 * b2 + 16777216 * b3.
Proof.
  intros H0 H1 H2 H3.
  rewrite int_shl_high by assumption.
  rewrite !int_shl_low by (try assumption; lia).
  set (a := if b3 <? 128 then b3 else b3 - 256).
  assert (Ha : a = b3 \/ a = b3 - 256)
    by (unfold a; destruct (b3 <? 128); auto).
  rewrite lor_disjoint
    by (change (2 ^ 24) with 16777216; change (2 ^ 16) with 65536; lia).
  replace (a * 2 ^ 24 + b2 * 2 ^ 16) with ((a * 2 ^ 8 + b2) * 2 ^ 16)
    by (change (2 ^ 24) with (2 ^ 8 * 2 ^ 16); ring).
  rewrite lor_disjoint
    by (change (2 ^ 16) with 65536; change (2 ^ 8) with 256; lia).
  replace ((a * 2 ^ 8 + b2) * 2 ^ 16 + b1 * 2 ^ 8)
    with (((a * 2 ^ 8 + b2) * 2 ^ 8 + b1) * 2 ^ 8)
    by (change (2 ^ 16) with (2 ^ 8 * 2 ^ 8); ring).
  rewrite lor_disjoint by (change (2 ^ 8) with 256; lia).
  change (2 ^ 16) with 65536. change (2 ^ 8) with 256.
  unfold to_uint.
  destruct Ha as [-> | ->].
  - rewrite Z.mod_small by lia. ring.
  - symmetry. apply Z.mod_unique with (q := -1); lia.
Qed.

Section ByteOrder.

Variable md5 : string -> list byte.

Lemma continuum_point_little_endian digest h :
  continuum_point digest h =
  digest_at digest (h * 4) + 256 * digest_at digest (1 + h * 4)
  + 65536 * digest_at digest (2 + h * 4)
  + 16777216 * digest_at digest (3 + h * 4).
Proof.
  unfold continuum_point. apply word_little_endian; apply digest_at_range.
Qed.

Lemma ketama_hashi_first_word key :
  ketama_hashi md5 key = continuum_point (md5 key) 0.
Proof. reflexivity. Qed.

Lemma continuum_point_range digest h :
  0 <= continuum_point digest h < 4294967296.
Proof. unfold continuum_point, to_uint. apply Z.mod_pos_bound. lia. Qed.

Lemma round_points_in sinfo k m :
  In m (round_points md5 sinfo k) ->
  ip m = addr sinfo /\
  exists h, 0 <= h < 4 /\
            point m = continuum_point (md5 (round_name sinfo k)) h.
Proof.
  unfold round_points. cbn [map In].
  intros [<-|[<-|[<-|[<-|[]]]]]; (split; [reflexivity|]);
    [exists 0|exists 1|exists 2|exists 3]; (split; [lia|reflexivity]).
Qed.

Lemma server_points_in sinfo ks m :
  In m (server_points md5 sinfo ks) ->
  ip m = addr sinfo /\
  exists k h, 0 <= k < ks /\ 0 <= h < 4 /\
              point m = continuum_point (md5 (round_name sinfo k)) h.
Proof.
  unfold server_points. intros H. apply in_flat_map in H.
  destruct H as (k & Hk & Hm). apply in_map_iff in Hk.
  destruct Hk as (j & <- & Hj). apply in_seq in Hj.
  apply round_points_in in Hm. destruct Hm as (Hip & h & Hh & Hp).
  split; [exact Hip|]. exists (Z.of_nat j), h. repeat split; solve [lia | exact Hp].
Qed.

Lemma ring_points_in l : forall rounds m,
  In m (ring_points md5 l rounds) ->
  exists sinfo ks k h,
    In sinfo l /\ In ks rounds /\ ip m = addr sinfo /\
    0 <= k < ks /\ 0 <= h < 4 /\
    point m = continuum_point (md5 (round_name sinfo k)) h.
Proof.
  induction l as [|sinfo l IH]; intros [|ks rounds] m H;
    try (simpl in H; contradiction).
  cbn [ring_points] in H. apply in_app_or in H. destruct H as [H|H].
  - apply server_points_in in H. destruct H as (Hip & k & h & Hk & Hh & Hp).
    exists sinfo, ks, k, h.
    repeat split; solve [left; reflexivity | lia | assumption].
  - apply IH in H.
    destruct H as (s & ks' & k & h & Hs & Hks & Hip & Hk & Hh & Hp).
    exists s, ks', k, h.
    repeat split; solve [right; assumption | lia | assumption].
Qed.

End ByteOrder.
(** ** A total weight of zero *)

(** With [ketama->memory] zero the quotient is NaN or an infinity, and so
    is everything computed from it: the conversion to [unsigned int] has no
    defined result. *)
Lemma hash_rounds_zero_total mem n : hash_rounds mem 0 n = None.
Proof.
  unfold hash_rounds.
  change (float_of_Z 0) with (S754_zero false).
  change double_40 with (S754_finite false 5629499534213120 (-47)).
  remember (double_of_float (float_of_Z n)) as y eqn:Ey. clear Ey.
  remember (float_of_Z mem) as x eqn:Ex. clear Ex.
  destruct x as [s|s| |s m e]; cbn [SFdiv double_of_float float_cast SFmul];
    destruct y as [t|t| |t m' e']; reflexivity.
Qed.

Section Degenerate.

Variable md5 : string -> list byte.

Lemma create_without_servers st :
  numservers st = 0 -> Ketama_create_continuum md5 st = Aborted.
Proof.
  intros H. unfold Ketama_create_continuum, bind, load. rewrite H.
  reflexivity.
Qed.

Lemma create_without_weight st :
  0 < numservers st -> continuum st = None -> servers st <> [] ->
  memory st = 0 ->
  Ketama_create_continuum md5 st = Undefined.
Proof.
  intros Hn Hc Hs Hm. rewrite create_continuum_body by assumption.
  destruct (servers st) as [|sinfo l]; [contradiction|].
  cbn [for_each_server]. unfold bind, load. cbn [memory set_continuum].
  rewrite Hm, hash_rounds_zero_total. reflexivity.
Qed.

(** The two assertions. *)
Lemma create_count_not_positive st :
  numservers st <= 0 -> Ketama_create_continuum md5 st = Aborted.
Proof.
  intros H. unfold Ketama_create_continuum, bind, load, assert.
  destruct (Z.ltb_spec 0 (numservers st)); [lia|reflexivity].
Qed.

Lemma create_twice st :
  continuum st <> None -> Ketama_create_continuum md5 st = Aborted.
Proof.
  intros Hc. unfold Ketama_create_continuum, bind, load, assert.
  destruct (0 <? numservers st); [|reflexivity].
  unfold ret. destruct (continuum st); [reflexivity|contradiction].
Qed.

End Degenerate.

(** * The claims *)

Section Claims.

Variable md5 : string -> list byte.
Variable list_add : serverinfo -> list serverinfo -> list serverinfo.

Lemma get_server_state key st p st' :
  Ketama_get_server md5 key st = Done (p, st') -> st' = st.
Proof.
  unfold Ketama_get_server. rewrite get_server_for_unfold.
  apply loop_state.
Qed.

(** With [numpoints] zero the first midpoint is 0, which is [numpoints]:
    the first iteration returns entry 0 without reading the array. *)
Lemma get_server_numpoints_zero st h :
  numpoints st = 0 ->
  get_server_iteration h 0 (numpoints st) st = Done (Return 0, st) /\
  get_server_for h st = Done (0, st).
Proof.
  intros H. rewrite get_server_for_unfold, H.
  assert (Hit : get_server_iteration h 0 0 st = Done (Return 0, st)).
  { apply iteration_at_end; [reflexivity|]. rewrite H. reflexivity. }
  split; [exact Hit|].
  change (Z.to_nat 0) with 0%nat. rewrite (loop_step _ _ _ _ _ _ Hit).
  reflexivity.
Qed.

Lemma constructed_numpoints calls st0 st :
  add_servers list_add calls Ketama_new = Done (tt, st0) ->
  Ketama_create_continuum md5 st0 = Done (tt, st) ->
  numpoints st = 0.
Proof.
  intros Ha Hc. apply add_servers_numpoints in Ha. destruct Ha as [Ha _].
  apply preserves_create in Hc. destruct Hc as (Hc & _).
  rewrite Hc, Ha. reflexivity.
Qed.

(** C2 (as amended): on a structure that holds a non-empty ring of fewer
    than 2^30 points, sorted ascending by position, [Ketama_get_server]
    returns, for every key, the entry with the smallest position that is at
    least the key's hash, and entry 0 when the hash is above every position
    of the ring; the structure is unchanged. *)
Theorem get_server_successor st key :
  holds_ring st -> 0 < numpoints st < SEARCH_LIMIT -> sorted (ring st) ->
  exists p m,
    Ketama_get_server md5 key st = Done (p, st) /\
    nth_error (ring st) (Z.to_nat p) = Some m /\
    ((exists m', In m' (ring st) /\ ketama_hashi md5 key <= point m') ->
     ketama_hashi md5 key <= point m /\
     forall m', In m' (ring st) -> ketama_hashi md5 key <= point m' ->
                point m <= point m') /\
    ((forall m', In m' (ring st) -> point m' < ketama_hashi md5 key) ->
     p = 0).
Proof.
  intros Hr [Hpos Hlim] Hs. unfold Ketama_get_server.
  destruct (get_server_for_successor st (ketama_hashi md5 key) Hr Hlim Hs)
    as (p & Hp & Hsucc).
  assert (Hne : ring st <> []).
  { intros E. unfold holds_ring in Hr. rewrite E in Hr. simpl in Hr. lia. }
  destruct (successor_smallest _ _ _ Hs Hne Hsucc) as (m & Hm & H1 & H2).
  exists p, m. auto.
Qed.

(** C3: after [Ketama_new], any sequence of [Ketama_add_server] calls and
    one [Ketama_create_continuum], [numpoints] is still 0; the first
    iteration of the search then takes the [midp == numpoints] branch and
    [Ketama_get_server] returns entry 0 of the continuum for every key. *)
Theorem constructed_numpoints_zero calls st0 st :
  add_servers list_add calls Ketama_new = Done (tt, st0) ->
  Ketama_create_continuum md5 st0 = Done (tt, st) ->
  numpoints st = 0 /\
  (forall h, get_server_iteration h 0 (numpoints st) st
             = Done (Return 0, st)) /\
  (forall key, Ketama_get_server md5 key st = Done (0, st)).
Proof.
  intros Ha Hc. pose proof (constructed_numpoints _ _ _ Ha Hc) as H0.
  split; [exact H0|]. split.
  - intros h. apply get_server_numpoints_zero. exact H0.
  - intros key. unfold Ketama_get_server.
    apply get_server_numpoints_zero. exact H0.
Qed.


(** C5: the code does not do what the claim says.  Construction on a
    structure without servers stops on its assertion, but the total weight
    is checked nowhere: with servers whose weights sum to zero the assertion
    on the server count passes, the first server's share is 0/0 or x/0, and
    the conversion of the resulting NaN or infinity to the round count is
    undefined.  No assertion stops the run. *)
Theorem create_continuum_degenerate st :
  (numservers st = 0 -> Ketama_create_continuum md5 st = Aborted) /\
  (0 < numservers st -> continuum st = None -> servers st <> [] ->
   memory st = 0 ->
   Ketama_create_continuum md5 st = Undefined /\
   Ketama_create_continuum md5 st <> Aborted).
Proof.
  split.
  - apply create_without_servers.
  - intros Hn Hc Hs Hm.
    rewrite (create_without_weight md5 st Hn Hc Hs Hm).
    split; [reflexivity|discriminate].
Qed.

(** C6 (as amended): on a structure whose continuum is not empty and whose
    [numpoints] (fewer than 2^30) entries are there, the search returns an
    entry of the continuum for every hash value, 0 and 0xFFFFFFFF
    included, and so does [Ketama_get_server] for every key. *)
Theorem get_server_total st arr :
  continuum st = Some arr -> arr <> [] ->
  holds_ring st -> numpoints st < SEARCH_LIMIT ->
  (forall h, exists p m,
      get_server_for h st = Done (p, st) /\
      nth_error arr (Z.to_nat p) = Some m) /\
  (forall key, exists p m,
      Ketama_get_server md5 key st = Done (p, st) /\
      nth_error arr (Z.to_nat p) = Some m).
Proof.
  intros Hc Hne Hr Hlim.
  assert (Hall : forall h, exists p m,
             get_server_for h st = Done (p, st) /\
             nth_error arr (Z.to_nat p) = Some m).
  { intros h.
    destruct (get_server_for_total st h Hr Hlim) as (p & Hp & H0 & Hlt).
    exists p. destruct (Z.eq_dec (numpoints st) 0) as [E|E].
    - destruct (get_server_numpoints_zero st h E) as [_ Hz].
      rewrite Hz in Hp. injection Hp as <-.
      destruct arr as [|m arr']; [contradiction|].
      exists m. split; [exact Hz|reflexivity].
    - pose proof (holds_ring_nonneg _ Hr).
      destruct (holds_ring_nth st p Hr ltac:(lia)) as (m & Hm).
      destruct (ring_nth _ _ _ Hm) as (arr' & Hc' & Hm').
      rewrite Hc in Hc'. injection Hc' as <-.
      exists m. split; assumption. }
  split; [exact Hall|]. intros key. apply Hall.
Qed.

(** C7: a ring position is the little-endian word of a four-byte group of
    the digest, [byte[3]<<24 | byte[2]<<16 | byte[1]<<8 | byte[0]]; the
    lookup hash of a key is that word for the first group of the key's
    digest; and every position that construction stores is such a word of
    the digest of one of a server's round names. *)
Theorem point_byte_order :
  (forall digest h,
      continuum_point digest h =
      digest_at digest (h * 4) + 256 * digest_at digest (1 + h * 4)
      + 65536 * digest_at digest (2 + h * 4)
      + 16777216 * digest_at digest (3 + h * 4)) /\
  (forall key,
      ketama_hashi md5 key = continuum_point (md5 key) 0 /\
      ketama_hashi md5 key =
      digest_at (md5 key) 0 + 256 * digest_at (md5 key) 1
      + 65536 * digest_at (md5 key) 2 + 16777216 * digest_at (md5 key) 3) /\
  (forall st rounds st' arr m,
      0 < numservers st -> continuum st = None ->
      Forall2 (round_count st) (servers st) rounds ->
      4 * total_rounds rounds < 4294967296 ->
      Ketama_create_continuum md5 st = Done (tt, st') ->
      continuum st' = Some arr -> In m arr ->
      exists sinfo k h,
        In sinfo (servers st) /\ ip m = addr sinfo /\ 0 <= h < 4 /\
        point m = continuum_point (md5 (round_name sinfo k)) h).
Proof.
  split; [apply continuum_point_little_endian|]. split.
  - intros key. split; [reflexivity|].
    rewrite ketama_hashi_first_word, continuum_point_little_endian.
    reflexivity.
  - intros st rounds st' arr m Hn Hc HF Hb Hrun Harr Hin.
    destruct (Z.le_gt_cases (4 * total_rounds rounds) (numservers st))
      as [Hfit|Hout].
    2:{ rewrite (create_continuum_outside md5 st rounds Hn Hc HF Hb) in Hrun
          by lia.
        discriminate Hrun. }
    rewrite (create_continuum_spec md5 st rounds Hn Hc HF Hb Hfit) in Hrun.
    injection Hrun as <-. cbn [continuum set_continuum] in Harr.
    injection Harr as <-. apply ring_points_in in Hin.
    destruct Hin as (s & ks & k & h & Hs & _ & Hip & _ & Hh & Hp).
    exists s, k, h. auto.
Qed.

(** C9: on a constructed structure [Ketama_get_server] returns for every
    key, and the structure after the call is the structure before it:
    [numpoints], [numservers], [memory], the server list and every entry
    of the continuum. *)
Theorem get_server_frame calls st0 st key :
  add_servers list_add calls Ketama_new = Done (tt, st0) ->
  Ketama_create_continuum md5 st0 = Done (tt, st) ->
  exists p,
    Ketama_get_server md5 key st = Done (p, st) /\
    forall q st',
      Ketama_get_server md5 key st = Done (q, st') ->
      st' = st /\ numpoints st' = numpoints st /\
      numservers st' = numservers st /\ memory st' = memory st /\
      servers st' = servers st /\ continuum st' = continuum st.
Proof.
  intros Ha Hc. exists 0. split.
  - unfold Ketama_get_server. apply get_server_numpoints_zero.
    apply (constructed_numpoints _ _ _ Ha Hc).
  - intros q st' H. apply get_server_state in H. subst st'.
    repeat split.
Qed.

(** C10 (as amended): every iteration of the search that goes round again
    strictly shrinks [highp - lowp]; the loop is never stopped by the
    iteration budget [numpoints + 1]; and when [numpoints] is below 2^30
    and that many entries are there, the loop returns an index. *)
Theorem get_server_loop_terminates st h :
  0 <= numpoints st ->
  (forall lowp highp lowp' highp' k k',
      get_server_iteration h lowp highp k = Done (Continue lowp' highp', k')
      -> 0 <= highp' - lowp' < highp - lowp) /\
  (forall fuel, (Z.to_nat (numpoints st) < fuel)%nat ->
      get_server_loop fuel h 0 (numpoints st) st <> OutOfFuel) /\
  (holds_ring st -> numpoints st < SEARCH_LIMIT ->
   exists p, forall fuel, (Z.to_nat (numpoints st) < fuel)%nat ->
      get_server_loop fuel h 0 (numpoints st) st = Done (p, st)).
Proof.
  intros Hn. split; [|split].
  - intros lowp highp lowp' highp' k k' H.
    apply iteration_shrinks in H. tauto.
  - intros fuel Hf. apply get_server_loop_fuel; lia.
  - intros Hr Hlim.
    destruct (get_server_for_total st h Hr Hlim) as (p & Hp & _).
    exists p. intros fuel Hf. rewrite get_server_for_unfold in Hp.
    apply (loop_fuel_irrelevant _ _ _ _ _ _ Hp). lia.
Qed.

End Claims.
(** * The claims at concrete inputs *)

Lemma hashi_of_key : ketama_hashi MD5.md5 "key" = 2316004924.
Proof. vm_compute. reflexivity. Qed.

Lemma small_ring_holds : holds_ring small_ring.
Proof. reflexivity. Qed.

Lemma small_ring_sorted : sorted (ring small_ring).
Proof. apply sortedb_sorted. reflexivity. Qed.

(** The search on the ring 10, 20, 20: successors, ties and wrap-around. *)
Example small_ring_lookups :
  map (fun h => get_server_for h small_ring) [0; 10; 11; 20; 21; 4294967295]
  = map (fun p => Done (p, small_ring)) [0; 0; 1; 1; 0; 0].
Proof. vm_compute. reflexivity. Qed.

Lemma one_server_rounds :
  Forall2 (round_count one_server_set) (servers one_server_set) [40].
Proof.
  repeat constructor; vm_compute; reflexivity.
Qed.


(** The [2^32 + 1] calls of [wrap_calls] and the structure they build. *)
Lemma wrap_count_value : Z.of_nat wrap_count = 4294967297.
Proof. unfold wrap_count. apply Z2Nat.id. discriminate. Qed.

Lemma add_unit_server n :
  Ketama_add_server list_add_spec "a" 1 1 (unit_servers n)
  = Done (tt, unit_servers (S n)).
Proof.
  assert (E1 : to_uint (to_uint (Z.of_nat n) + 1) = to_uint (Z.of_nat (S n))).
  { unfold to_uint. rewrite Zplus_mod_idemp_l. f_equal. lia. }
  assert (E2 : to_ulong (to_ulong (Z.of_nat n) + 1)
               = to_ulong (Z.of_nat (S n))).
  { unfold to_ulong. rewrite Zplus_mod_idemp_l. f_equal. lia. }
  unfold Ketama_add_server. cbv zeta.
  change ("a" ++ ":" ++ dec (to_int 1))%string with "a:1"%string.
  change (21 <? strlen "a:1") with false. cbv iota.
  change (to_ulong 1) with 1.
  unfold modify, unit_servers, list_add_spec.
  cbn [numpoints numservers memory continuum servers].
  rewrite E1, E2, <- repeat_cons. reflexivity.
Qed.

Lemma add_unit_servers n : forall m,
  add_servers list_add_spec (repeat ("a"%string, 1, 1) n) (unit_servers m)
  = Done (tt, unit_servers (n + m)).
Proof.
  induction n as [|n IH]; intros m.
  - reflexivity.
  - cbn [repeat add_servers].
    rewrite (bind_eval _ _ _ _ _ (add_unit_server m)), IH.
    rewrite Nat.add_succ_r. reflexivity.
Qed.

Lemma add_wrap_calls :
  add_servers list_add_spec wrap_calls Ketama_new = Done (tt, wrapped_set).
Proof.
  assert (E : Ketama_new = unit_servers 0) by reflexivity.
  rewrite E. unfold wrap_calls, wrapped_set.
  rewrite add_unit_servers, Nat.add_0_r. reflexivity.
Qed.

Lemma wrapped_set_counters :
  numpoints wrapped_set = 0 /\ numservers wrapped_set = 1 /\
  memory wrapped_set = 4294967297 /\ continuum wrapped_set = None /\
  Z.of_nat (List.length (servers wrapped_set)) = 4294967297.
Proof.
  unfold wrapped_set, unit_servers.
  cbn [numpoints numservers memory continuum servers].
  rewrite repeat_length, wrap_count_value.
  repeat split; reflexivity.
Qed.

(** With the server count wrapped to 1 every share of [40 * 1] rounds
    rounds down to 0: construction stores nothing and returns. *)
Lemma create_unit_servers md5 n :
  0 < to_uint (Z.of_nat n) ->
  hash_rounds 1 (to_ulong (Z.of_nat n)) (to_uint (Z.of_nat n)) = Some 0 ->
  Ketama_create_continuum md5 (unit_servers n)
  = Done (tt, set_continuum (Some []) (unit_servers n)).
Proof.
  intros Hn Hr.
  rewrite create_continuum_body by (solve [exact Hn | reflexivity]).
  erewrite bind_eval; [reflexivity|].
  apply servers_idle. apply Forall_forall. intros sinfo Hin.
  apply repeat_spec in Hin. rewrite Hin. exact Hr.
Qed.

Lemma create_wrapped_set md5 :
  Ketama_create_continuum md5 wrapped_set
  = Done (tt, set_continuum (Some []) wrapped_set).
Proof.
  unfold wrapped_set. apply create_unit_servers; rewrite wrap_count_value.
  - reflexivity.
  - vm_compute. reflexivity.
Qed.

(** C1: the code does not do what the claim says.  Construction stores
    the entries in the order it generates them and returns without sorting
    them: whenever it returns, the continuum is the servers' rounds one
    after the other.  For the server 127.0.0.1:11211 of weight 1, in a
    structure whose block holds the 160 entries of its 40 rounds, it returns
    them with the positions 2589391586 and 1482608462 first: the continuum
    is not sorted. *)
Theorem create_continuum_unsorted :
  (forall st rounds st' arr,
      Forall2 (round_count st) (servers st) rounds ->
      4 * total_rounds rounds < 4294967296 ->
      Ketama_create_continuum MD5.md5 st = Done (tt, st') ->
      continuum st' = Some arr ->
      arr = ring_points MD5.md5 (servers st) rounds) /\
  exists st' a b rest,
    servers roomy_server_set =
      [ {| addr := "127.0.0.1:11211"; sinfo_memory := 1 |} ] /\
    1 <= numservers roomy_server_set /\ 0 < memory roomy_server_set /\
    Ketama_create_continuum MD5.md5 roomy_server_set = Done (tt, st') /\
    continuum st' = Some (a :: b :: rest) /\
    List.length (a :: b :: rest) = 160%nat /\
    point a = 2589391586 /\ point b = 1482608462 /\
    ~ sorted (a :: b :: rest).
Proof.
  split.
  { intros st rounds st' arr HF Hb Hrun Harr.
    destruct (Z.ltb_spec 0 (numservers st)) as [Hn|Hn].
    2:{ rewrite (create_count_not_positive MD5.md5) in Hrun by exact Hn.
        discriminate Hrun. }
    destruct (continuum st) as [c|] eqn:Hc.
    { rewrite (create_twice MD5.md5) in Hrun by (rewrite Hc; discriminate).
      discriminate Hrun. }
    destruct (Z.le_gt_cases (4 * total_rounds rounds) (numservers st))
      as [Hfit|Hout].
    2:{ rewrite (create_continuum_outside MD5.md5 st rounds Hn Hc HF Hb)
          in Hrun by lia.
        discriminate Hrun. }
    rewrite (create_continuum_spec MD5.md5 st rounds Hn Hc HF Hb Hfit)
      in Hrun.
    injection Hrun as <-. cbn [continuum set_continuum] in Harr.
    injection Harr as <-. reflexivity. }
  do 4 eexists.
  split; [reflexivity|].
  split; [vm_compute; discriminate|].
  split; [vm_compute; reflexivity|].
  split; [vm_compute; reflexivity|].
  split; [cbn [continuum]; reflexivity|].
  split; [reflexivity|].
  split; [reflexivity|]. split; [reflexivity|].
  intros Hs. specialize (Hs 0%nat _ _ eq_refl eq_refl).
  cbn [point] in Hs. lia.
Qed.

(** C2, the claim as stated fails: a sorted, non-empty ring of [INT_MAX]
    points and the key ["key"], whose hash 2316004924 is above every
    position.  The second iteration adds [lowp = 1073741824] and
    [highp = 2147483647], which overflows [int]: no entry is returned. *)
Lemma get_server_successor_overflow :
  holds_ring huge_ring /\ ring huge_ring <> [] /\ sorted (ring huge_ring) /\
  (forall m, In m (ring huge_ring) -> point m < ketama_hashi MD5.md5 "key") /\
  Ketama_get_server MD5.md5 "key" huge_ring = Undefined /\
  ~ (exists p, Ketama_get_server MD5.md5 "key" huge_ring = Done (p, huge_ring)).
Proof.
  assert (Hu : Ketama_get_server MD5.md5 "key" huge_ring = Undefined).
  { unfold Ketama_get_server. rewrite hashi_of_key.
    apply huge_ring_undefined. reflexivity. }
  split; [exact huge_ring_holds|]. split; [exact huge_ring_nonempty|].
  split; [exact huge_ring_sorted|]. split.
  - intros m Hm. apply In_nth_error in Hm. destruct Hm as (i & Hi).
    rewrite (huge_ring_entries _ _ Hi), hashi_of_key. reflexivity.
  - split; [exact Hu|]. intros (p & Hp). rewrite Hu in Hp. discriminate.
Qed.

Lemma get_server_successor_witness :
  holds_ring small_ring /\ 0 < numpoints small_ring < SEARCH_LIMIT /\
  sorted (ring small_ring) /\
  exists p m,
    Ketama_get_server MD5.md5 "key" small_ring = Done (p, small_ring) /\
    nth_error (ring small_ring) (Z.to_nat p) = Some m /\
    ((exists m', In m' (ring small_ring) /\
                 ketama_hashi MD5.md5 "key" <= point m') ->
     ketama_hashi MD5.md5 "key" <= point m /\
     forall m', In m' (ring small_ring) ->
                ketama_hashi MD5.md5 "key" <= point m' ->
                point m <= point m') /\
    ((forall m', In m' (ring small_ring) ->
                 point m' < ketama_hashi MD5.md5 "key") -> p = 0).
Proof.
  split; [exact small_ring_holds|].
  split; [split; reflexivity|].
  split; [exact small_ring_sorted|].
  apply (get_server_successor MD5.md5 small_ring "key").
  - exact small_ring_holds.
  - split; reflexivity.
  - exact small_ring_sorted.
Defined.

(** C3 on the structure that the calls of [wrap_calls] build. *)
Lemma constructed_numpoints_zero_witness :
  exists st0 st,
    add_servers list_add_spec wrap_calls Ketama_new = Done (tt, st0) /\
    Ketama_create_continuum MD5.md5 st0 = Done (tt, st) /\
    numpoints st = 0 /\
    (forall h, get_server_iteration h 0 (numpoints st) st
               = Done (Return 0, st)) /\
    (forall key, Ketama_get_server MD5.md5 key st = Done (0, st)).
Proof.
  exists wrapped_set, (set_continuum (Some []) wrapped_set).
  split; [exact add_wrap_calls|].
  split; [exact (create_wrapped_set MD5.md5)|].
  exact (constructed_numpoints_zero MD5.md5 list_add_spec wrap_calls _ _
           add_wrap_calls (create_wrapped_set MD5.md5)).
Defined.



(** C5 at one server of weight 0: the server count is 1, the assertion
    passes, and the run goes on to the conversion of NaN. *)
Lemma create_continuum_degenerate_witness :
  exists st,
    add_servers list_add_spec weightless_server Ketama_new = Done (tt, st) /\
    0 < numservers st /\ continuum st = None /\ servers st <> [] /\
    memory st = 0 /\
    Ketama_create_continuum MD5.md5 st = Undefined /\
    Ketama_create_continuum MD5.md5 st <> Aborted.
Proof.
  eexists.
  split; [vm_compute; reflexivity|].
  split; [reflexivity|]. split; [reflexivity|].
  split; [discriminate|]. split; [reflexivity|].
  apply (proj2 (create_continuum_degenerate MD5.md5 _)).
  - reflexivity.
  - reflexivity.
  - discriminate.
  - reflexivity.
Defined.

(** C6, the claim as stated fails: the non-empty ring of [INT_MAX] points
    and the hash value 0xFFFFFFFF.  The search overflows [int] in its
    second iteration and returns no entry. *)
Lemma get_server_total_overflow :
  holds_ring huge_ring /\ ring huge_ring <> [] /\
  get_server_for 4294967295 huge_ring = Undefined /\
  ~ (exists p m, get_server_for 4294967295 huge_ring = Done (p, huge_ring) /\
                 nth_error (ring huge_ring) (Z.to_nat p) = Some m).
Proof.
  assert (Hu : get_server_for 4294967295 huge_ring = Undefined)
    by (apply huge_ring_undefined; reflexivity).
  split; [exact huge_ring_holds|]. split; [exact huge_ring_nonempty|].
  split; [exact Hu|]. intros (p & m & Hp & _). rewrite Hu in Hp.
  discriminate.
Qed.

Lemma get_server_total_witness :
  continuum small_ring =
    Some [ {| point := 10; ip := "a:1" |}; {| point := 20; ip := "b:1" |};
           {| point := 20; ip := "a:1" |} ] /\
  holds_ring small_ring /\ numpoints small_ring < SEARCH_LIMIT /\
  (exists p m, get_server_for 0 small_ring = Done (p, small_ring) /\
               nth_error (ring small_ring) (Z.to_nat p) = Some m) /\
  (exists p m, get_server_for 4294967295 small_ring = Done (p, small_ring) /\
               nth_error (ring small_ring) (Z.to_nat p) = Some m).
Proof.
  split; [reflexivity|]. split; [exact small_ring_holds|].
  split; [reflexivity|].
  pose proof (get_server_total MD5.md5 small_ring _ eq_refl
                ltac:(discriminate) small_ring_holds eq_refl) as [H _].
  split; apply H.
Defined.

Lemma point_byte_order_witness :
  ketama_hashi MD5.md5 "key" = continuum_point (MD5.md5 "key") 0 /\
  ketama_hashi MD5.md5 "key" =
  digest_at (MD5.md5 "key") 0 + 256 * digest_at (MD5.md5 "key") 1
  + 65536 * digest_at (MD5.md5 "key") 2 + 16777216 * digest_at (MD5.md5 "key") 3.
Proof.
  exact (proj1 (proj2 (point_byte_order MD5.md5)) "key"%string).
Defined.

(** C9 on the structure that the calls of [wrap_calls] build. *)
Lemma get_server_frame_witness :
  exists st0 st,
    add_servers list_add_spec wrap_calls Ketama_new = Done (tt, st0) /\
    Ketama_create_continuum MD5.md5 st0 = Done (tt, st) /\
    exists p,
      Ketama_get_server MD5.md5 "key" st = Done (p, st) /\
      forall q st',
        Ketama_get_server MD5.md5 "key" st = Done (q, st') ->
        st' = st /\ numpoints st' = numpoints st /\
        numservers st' = numservers st /\ memory st' = memory st /\
        servers st' = servers st /\ continuum st' = continuum st.
Proof.
  exists wrapped_set, (set_continuum (Some []) wrapped_set).
  split; [exact add_wrap_calls|].
  split; [exact (create_wrapped_set MD5.md5)|].
  exact (get_server_frame MD5.md5 list_add_spec wrap_calls _ _ "key"
           add_wrap_calls (create_wrapped_set MD5.md5)).
Defined.

(** C10, the claim as stated fails: [numpoints = INT_MAX] (every entry at
    position 0) and [h = 1].  The first iteration moves [lowp] to
    1073741824; the second adds it to [highp = 2147483647], which is not
    an [int]: the iteration neither returns nor shrinks the interval, and
    the loop returns no index whatever the budget. *)
Lemma get_server_loop_overflow :
  0 <= numpoints huge_ring /\ holds_ring huge_ring /\
  get_server_iteration 1 0 (numpoints huge_ring) huge_ring =
    Done (Continue 1073741824 2147483647, huge_ring) /\
  get_server_iteration 1 1073741824 2147483647 huge_ring = Undefined /\
  forall fuel p st',
    get_server_loop fuel 1 0 (numpoints huge_ring) huge_ring
      <> Done (p, st').
Proof.
  rewrite huge_ring_numpoints.
  split; [unfold INT_MAX; lia|].
  split; [exact huge_ring_holds|].
  split; [exact (huge_ring_first 1 eq_refl)|].
  split; [apply iteration_overflow; reflexivity|].
  intros fuel p st' E. destruct fuel as [|[|fuel]].
  - cbn [get_server_loop] in E. unfold out_of_fuel in E. discriminate E.
  - rewrite (loop_step _ _ _ _ _ _ (huge_ring_first 1 eq_refl)) in E.
    cbn [get_server_loop] in E. unfold out_of_fuel in E. discriminate E.
  - rewrite (huge_ring_loop 1 fuel eq_refl) in E. discriminate E.
Qed.

Lemma get_server_loop_terminates_witness :
  0 <= numpoints small_ring /\
  (forall lowp highp lowp' highp' k k',
      get_server_iteration 15 lowp highp k = Done (Continue lowp' highp', k')
      -> 0 <= highp' - lowp' < highp - lowp) /\
  (forall fuel, (Z.to_nat (numpoints small_ring) < fuel)%nat ->
      get_server_loop fuel 15 0 (numpoints small_ring) small_ring
        <> OutOfFuel) /\
  (holds_ring small_ring -> numpoints small_ring < SEARCH_LIMIT ->
   exists p, forall fuel, (Z.to_nat (numpoints small_ring) < fuel)%nat ->
      get_server_loop fuel 15 0 (numpoints small_ring) small_ring
        = Done (p, small_ring)).
Proof.
  split; [discriminate|].
  apply (get_server_loop_terminates small_ring 15). discriminate.
Defined.

(** * Further properties of ketama.c *)

(** ** Strings written by [sprintf] *)

Lemma strlen_append s1 s2 :
  strlen (s1 ++ s2) = strlen s1 + strlen s2.
Proof.
  unfold strlen. induction s1 as [|c s1 IH]; simpl String.length.
  - lia.
  - simpl in IH. lia.
Qed.

(** ** The length of [%d] *)

Lemma lu_digit_value r t :
  (r < 10)%N ->
  DecimalPos.Unsigned.of_lu (lu_digit r t)
  = (r + 10 * DecimalPos.Unsigned.of_lu t)%N.
Proof.
  intros Hr. unfold lu_digit.
  repeat match goal with
         | |- context [(r =? ?c)%N] =>
             destruct (N.eqb_spec r c) as [->|?]; [reflexivity|]
         end.
  assert (r = 9%N) as -> by lia. reflexivity.
Qed.

Lemma lu_digit_length r t :
  Decimal.nb_digits (lu_digit r t) = S (Decimal.nb_digits t).
Proof.
  unfold lu_digit.
  repeat match goal with
         | |- context [(r =? ?c)%N] => destruct (r =? c)%N; [reflexivity|]
         end.
  reflexivity.
Qed.

Lemma lu_of_value n : forall z,
  (z < 10 ^ N.of_nat n)%N -> DecimalPos.Unsigned.of_lu (lu_of n z) = z.
Proof.
  induction n as [|n IH]; intros z Hz.
  - simpl in *. lia.
  - cbn [lu_of]. rewrite lu_digit_value by (apply N.mod_lt; discriminate).
    rewrite IH.
    + rewrite N.add_comm. symmetry. rewrite N.add_comm.
      pose proof (N.div_mod z 10 ltac:(discriminate)). lia.
    + rewrite Nat2N.inj_succ, N.pow_succ_r' in Hz.
      apply N.Div0.div_lt_upper_bound. exact Hz.
Qed.

Lemma lu_of_length n z : Decimal.nb_digits (lu_of n z) = n.
Proof.
  revert z. induction n as [|n IH]; intros z; [reflexivity|].
  cbn [lu_of]. rewrite lu_digit_length, IH. reflexivity.
Qed.

(** A number below [10^n] has at most [n] decimal digits. *)
Lemma to_uint_digits n z :
  (0 < n)%nat -> (z < 10 ^ N.of_nat n)%N ->
  (Decimal.nb_digits (N.to_uint z) <= n)%nat.
Proof.
  intros Hn Hz.
  rewrite <- (lu_of_value n z Hz) at 1.
  rewrite <- DecimalPos.Unsigned.of_lu_rev.
  change (Pos.of_uint (Decimal.rev (lu_of n z)))
    with (N.of_uint (Decimal.rev (lu_of n z))).
  rewrite DecimalN.Unsigned.to_of.
  assert (Hl : Decimal.nb_digits (Decimal.rev (lu_of n z)) = n)
    by (rewrite DecimalFacts.nb_digits_rev; apply lu_of_length).
  rewrite <- Hl at 2. apply DecimalFacts.nb_digits_unorm.
  apply DecimalFacts.nb_digits_n0. lia.
Qed.

Lemma string_of_uint_length d :
  String.length (NilEmpty.string_of_uint d) = Decimal.nb_digits d.
Proof. induction d; simpl; congruence. Qed.

Lemma dec_digits n z :
  (0 < n)%nat -> 0 <= z < 10 ^ Z.of_nat n -> strlen (dec z) <= Z.of_nat n.
Proof.
  intros Hn Hz. unfold dec, strlen.
  assert (Hd : (Decimal.nb_digits (N.to_uint (Z.to_N z)) <= n)%nat).
  { apply to_uint_digits; [exact Hn|].
    apply N2Z.inj_lt. rewrite Z2N.id by lia.
    rewrite N2Z.inj_pow, nat_N_Z. simpl Z.of_N. lia. }
  assert (Hs : NilZero.string_of_int (Z.to_int z)
               = NilEmpty.string_of_uint (N.to_uint (Z.to_N z))).
  { destruct z as [|p|p]; [reflexivity| |lia].
    cbn [Z.to_int Z.to_N N.to_uint NilZero.string_of_int].
    unfold NilZero.string_of_uint.
    pose proof (DecimalPos.Unsigned.to_uint_nonnil p) as Hnil.
    destruct (Pos.to_uint p); [contradiction|reflexivity..]. }
  rewrite Hs, string_of_uint_length. lia.
Qed.

(** [%d] prints a number below 100000 in at most five characters and one
    below 10000000 in at most seven. *)
Lemma dec_length z :
  0 <= z < 10000000 ->
  strlen (dec z) <= (if z <? 100000 then 5 else 7).
Proof.
  intros Hz. destruct (Z.ltb_spec z 100000).
  - apply (dec_digits 5 z); [lia|]. change (10 ^ Z.of_nat 5) with 100000. lia.
  - apply (dec_digits 7 z); [lia|].
    change (10 ^ Z.of_nat 7) with 10000000. lia.
Qed.

Lemma to_int_small z : 0 <= z <= INT_MAX -> to_int z = z.
Proof.
  unfold to_int, to_uint, INT_MAX. intros Hz.
  rewrite Z.mod_small by lia.
  destruct (Z.leb_spec z 2147483647); lia.
Qed.

Lemma round_name_length sinfo k :
  0 <= k < 10000000 ->
  strlen (round_name sinfo k) <= strlen (addr sinfo) + 8.
Proof.
  intros Hk. unfold round_name. rewrite !strlen_append.
  rewrite to_int_small by (unfold INT_MAX; lia).
  pose proof (dec_length k Hk) as Hd.
  change (strlen "-") with 1.
  destruct (k <? 100000); lia.
Qed.

(** ** The server set *)

Section ServerSet.

Variable list_add : serverinfo -> list serverinfo -> list serverinfo.

Lemma add_server_done a port weight k u k' :
  Ketama_add_server list_add a port weight k = Done (u, k') ->
  strlen (a ++ ":" ++ dec (to_int port)) <= 21 /\
  k' = {| numpoints := numpoints k;
          numservers := to_uint (numservers k + 1);
          memory := to_ulong (memory k + to_ulong weight);
          continuum := continuum k;
          servers :=
            list_add {| addr := (a ++ ":" ++ dec (to_int port))%string;
                        sinfo_memory := to_ulong weight |} (servers k) |}.
Proof.
  unfold Ketama_add_server.
  destruct (Z.ltb_spec 21 (strlen (a ++ ":" ++ dec (to_int port))))
    as [Hl|Hl]; [discriminate|].
  unfold modify. intros H. injection H as _ <-. split; [lia|reflexivity].
Qed.

Lemma to_uint_add_l a b : to_uint (to_uint a + b) = to_uint (a + b).
Proof. unfold to_uint. apply Z.add_mod_idemp_l. discriminate. Qed.

Lemma to_ulong_add_l a b : to_ulong (to_ulong a + b) = to_ulong (a + b).
Proof. unfold to_ulong. apply Z.add_mod_idemp_l. discriminate. Qed.

Lemma to_ulong_add_r a b : to_ulong (a + to_ulong b) = to_ulong (a + b).
Proof. unfold to_ulong. apply Z.add_mod_idemp_r. discriminate. Qed.

Lemma add_servers_counts calls : forall k u k',
  numservers k = to_uint (numservers k) ->
  memory k = to_ulong (memory k) ->
  add_servers list_add calls k = Done (u, k') ->
  numservers k' = to_uint (numservers k + Z.of_nat (List.length calls)) /\
  memory k' = to_ulong (memory k + fold_right Z.add 0 (map snd calls)).
Proof.
  induction calls as [|[[a port] weight] calls IH]; intros k u k' Hn Hm H.
  - simpl in H. unfold ret in H. injection H as _ <-.
    cbn [List.length map fold_right Z.of_nat]. rewrite !Z.add_0_r. auto.
  - simpl in H. apply bind_done in H. destruct H as (x & k1 & H1 & H2).
    apply add_server_done in H1. destruct H1 as [_ ->].
    apply IH in H2; cbn [numservers memory] in *.
    + destruct H2 as [E1 E2]. rewrite E1, E2.
      cbn [List.length map fold_right snd].
      rewrite Nat2Z.inj_succ. split.
      * rewrite to_uint_add_l. f_equal. lia.
      * rewrite to_ulong_add_l.
        replace (memory k + to_ulong weight +
                 fold_right Z.add 0 (map snd calls))
          with (memory k + fold_right Z.add 0 (map snd calls)
                + to_ulong weight) by lia.
        rewrite to_ulong_add_r. f_equal. lia.
    + unfold to_uint. rewrite Z.mod_mod by discriminate. reflexivity.
    + unfold to_ulong. rewrite Z.mod_mod by discriminate. reflexivity.
Qed.

(** X1: after [Ketama_new] and any sequence of [Ketama_add_server] calls,
    [numservers] is the number of calls modulo 2^32 and [memory] is the sum
    of the weights modulo 2^64; [numpoints] is 0 and [continuum] is NULL. *)
Theorem add_servers_bookkeeping calls st :
  add_servers list_add calls Ketama_new = Done (tt, st) ->
  numservers st = Z.of_nat (List.length calls) mod 4294967296 /\
  memory st =
    fold_right Z.add 0 (map snd calls) mod 18446744073709551616 /\
  numpoints st = 0 /\ continuum st = None.
Proof.
  intros H.
  destruct (add_servers_counts calls Ketama_new tt st eq_refl eq_refl H)
    as [E1 E2].
  destruct (add_servers_numpoints list_add calls _ _ _ H) as [E3 E4].
  repeat split; assumption.
Qed.

(** X2: an address of at most 15 characters (a dotted IPv4 address) with a
    port between 0 and 65535 fits [char addr[22]]: [Ketama_add_server]
    returns, having stored ["<addr>:<port>"], of at most 21 characters,
    with the weight, counted the server and added the weight to
    [memory]. *)
Theorem add_server_ipv4 a port weight k :
  strlen a <= 15 -> 0 <= port <= 65535 ->
  exists k',
    Ketama_add_server list_add a port weight k = Done (tt, k') /\
    servers k' =
      list_add {| addr := (a ++ ":" ++ dec port)%string;
                  sinfo_memory := weight mod 18446744073709551616 |}
               (servers k) /\
    strlen (a ++ ":" ++ dec port) <= 21 /\
    numservers k' = (numservers k + 1) mod 4294967296 /\
    memory k' =
      (memory k + weight mod 18446744073709551616)
        mod 18446744073709551616 /\
    numpoints k' = numpoints k /\ continuum k' = continuum k.
Proof.
  intros Ha Hp.
  assert (Hlen : strlen (a ++ ":" ++ dec port) <= 21).
  { rewrite !strlen_append. change (strlen ":") with 1.
    pose proof (dec_length port ltac:(lia)) as Hd.
    destruct (Z.ltb_spec port 100000); lia. }
  unfold Ketama_add_server.
  rewrite to_int_small by (unfold INT_MAX; lia).
  destruct (Z.ltb_spec 21 (strlen (a ++ ":" ++ dec port))); [lia|].
  eexists. split; [reflexivity|]. cbn. repeat split. exact Hlen.
Qed.

End ServerSet.

(** X4: for a server whose address has at most 21 characters, the names
    of rounds 0 to 9999999 fit [char ss[30]]; with an address of 21
    characters round 10000000 does not, and the round is undefined. *)
Theorem round_names_fit md5 sinfo :
  strlen (addr sinfo) <= 21 ->
  (forall ks, 0 <= ks <= 10000000 -> names_fit sinfo ks = true) /\
  (strlen (addr sinfo) = 21 ->
   forall cont k, hash_round md5 sinfo 10000000 cont k = Undefined).
Proof.
  intros Ha. split.
  - intros ks Hks. unfold names_fit. apply forallb_forall.
    intros k Hk. apply in_map_iff in Hk. destruct Hk as (j & <- & Hj).
    apply in_seq in Hj. apply Z.leb_le.
    pose proof (round_name_length sinfo (Z.of_nat j) ltac:(lia)). lia.
  - intros E cont k. unfold hash_round.
    assert (Hn : strlen (round_name sinfo 10000000) = 30).
    { unfold round_name. rewrite !strlen_append, E. reflexivity. }
    rewrite Hn. reflexivity.
Qed.

(** ** The comparison function *)

(** X5: [ketama_compare] is a comparison function as [qsort] needs one:
    its value is -1, 0 or 1, exchanging the arguments negates it, it is 0
    exactly for equal positions and negative exactly when the first
    position is smaller, and it is transitive. *)
Theorem ketama_compare_order a b c :
  (ketama_compare a b = -1 \/ ketama_compare a b = 0 \/
   ketama_compare a b = 1) /\
  ketama_compare b a = - ketama_compare a b /\
  (ketama_compare a b = 0 <-> point a = point b) /\
  (ketama_compare a b < 0 <-> point a < point b) /\
  (ketama_compare a b <= 0 -> ketama_compare b c <= 0 ->
   ketama_compare a c <= 0).
Proof.
  unfold ketama_compare.
  destruct (Z.ltb_spec (point a) (point b)),
           (Z.ltb_spec (point b) (point a)),
           (Z.ltb_spec (point b) (point c)),
           (Z.ltb_spec (point c) (point b)),
           (Z.ltb_spec (point a) (point c)),
           (Z.ltb_spec (point c) (point a)); lia.
Qed.

(** ** Construction, once *)

Lemma store_mcs_allocated cont v k u k' :
  store_mcs cont v k = Done (u, k') -> continuum k' <> None.
Proof.
  unfold store_mcs. destruct (continuum k); [|discriminate].
  destruct (numservers k <=? cont); [discriminate|].
  intros H. injection H as _ <-. discriminate.
Qed.

Lemma for_loop_allocated {S} (body : Z -> S -> M S) :
  (forall i s k s' k', body i s k = Done (s', k') ->
                       continuum k <> None -> continuum k' <> None) ->
  forall n i s k s' k',
    for_loop n i body s k = Done (s', k') ->
    continuum k <> None -> continuum k' <> None.
Proof.
  intros Hb. induction n as [|n IH]; intros i s k s' k' H Hk.
  - simpl in H. unfold ret in H. injection H as _ <-. exact Hk.
  - simpl in H. apply bind_done in H. destruct H as (s1 & k1 & H1 & H2).
    apply (IH _ _ _ _ _ H2). apply (Hb _ _ _ _ _ H1 Hk).
Qed.

Section Once.

Variable md5 : string -> list byte.
Variable list_add : serverinfo -> list serverinfo -> list serverinfo.

Lemma hash_round_allocated sinfo i cont k cont' k' :
  hash_round md5 sinfo i cont k = Done (cont', k') ->
  continuum k <> None -> continuum k' <> None.
Proof.
  unfold hash_round. destruct (29 <? strlen (round_name sinfo i));
    [discriminate|].
  apply for_loop_allocated. intros h c k0 c' k0' H _.
  unfold store_point in H. apply bind_done in H.
  destruct H as (u & k1 & H1 & H2). unfold ret in H2. injection H2 as _ <-.
  apply (store_mcs_allocated _ _ _ _ _ H1).
Qed.

Lemma for_each_server_allocated l : forall cont k cont' k',
  for_each_server md5 l cont k = Done (cont', k') ->
  continuum k <> None -> continuum k' <> None.
Proof.
  induction l as [|sinfo l IH]; intros cont k cont' k' H Hk.
  - simpl in H. unfold ret in H. injection H as _ <-. exact Hk.
  - cbn [for_each_server] in H. unfold bind at 1 in H. unfold load at 1 in H.
    unfold bind at 1 in H. unfold load at 1 in H.
    destruct (hash_rounds _ _ _) as [ks|]; [|discriminate].
    apply bind_done in H. destruct H as (c1 & k1 & H1 & H2).
    apply (IH _ _ _ _ H2).
    apply (for_loop_allocated (hash_round md5 sinfo)
             (hash_round_allocated sinfo) _ _ _ _ _ _ H1 Hk).
Qed.

Lemma create_continuum_allocated st st' :
  Ketama_create_continuum md5 st = Done (tt, st') -> continuum st' <> None.
Proof.
  intros H.
  assert (Hpre : 0 < numservers st /\ continuum st = None).
  { unfold Ketama_create_continuum in H.
    unfold bind at 1 in H. unfold load at 1 in H.
    destruct (Z.ltb_spec 0 (numservers st)); [|discriminate].
    unfold bind at 1 in H. unfold assert at 1 in H. unfold ret at 1 in H.
    unfold bind at 1 in H. unfold load at 1 in H.
    destruct (continuum st); [discriminate|]. split; [assumption|reflexivity]. }
  destruct Hpre as [Hn Hc].
  rewrite (create_continuum_body md5 st Hn Hc) in H.
  apply bind_done in H. destruct H as (c & k1 & H1 & H2).
  unfold ret in H2. injection H2 as <-.
  apply (for_each_server_allocated _ _ _ _ _ H1). discriminate.
Qed.

(** X6: a construction that returns has passed both assertions (at least
    one server, no continuum yet), has given the structure a continuum and
    has changed no other field. *)
Theorem create_continuum_frame st st' :
  Ketama_create_continuum md5 st = Done (tt, st') ->
  0 < numservers st /\ continuum st = None /\ continuum st' <> None /\
  numpoints st' = numpoints st /\ numservers st' = numservers st /\
  memory st' = memory st /\ servers st' = servers st.
Proof.
  intros H. pose proof (create_continuum_allocated _ _ H) as Ha.
  pose proof (preserves_create md5 _ _ _ H) as (E1 & E2 & E3 & E4).
  assert (Hn : 0 < numservers st /\ continuum st = None).
  { destruct (Z.ltb_spec 0 (numservers st)) as [Hn|Hn].
    - split; [exact Hn|]. destruct (continuum st) as [arr|] eqn:Hc;
        [|reflexivity].
      rewrite (create_twice md5) in H by (rewrite Hc; discriminate).
      discriminate.
    - unfold Ketama_create_continuum, bind, load, assert in H.
      destruct (Z.ltb_spec 0 (numservers st)); [lia|discriminate]. }
  destruct Hn. repeat split; assumption.
Qed.

(** X7: construction happens once.  After a construction that returned,
    [Ketama_add_server] calls leave the continuum as it is, and another
    [Ketama_create_continuum] stops on an assertion: the servers added
    since can never be put on the ring. *)
Theorem create_continuum_once st st' calls st'' :
  Ketama_create_continuum md5 st = Done (tt, st') ->
  add_servers list_add calls st' = Done (tt, st'') ->
  continuum st'' = continuum st' /\
  Ketama_create_continuum md5 st' = Aborted /\
  Ketama_create_continuum md5 st'' = Aborted.
Proof.
  intros Hc Ha. pose proof (create_continuum_allocated _ _ Hc) as Hal.
  destruct (add_servers_numpoints list_add calls _ _ _ Ha) as [_ E].
  split; [exact E|]. split; apply create_twice; congruence.
Qed.

(** X8: a lookup before any construction meets no check: with
    [numpoints] 0 and [continuum] NULL it returns the address of entry 0
    of the NULL array, for every key. *)
Theorem get_server_unconstructed calls st key :
  add_servers list_add calls Ketama_new = Done (tt, st) ->
  continuum st = None /\
  Ketama_get_server md5 key st = Done (0, st).
Proof.
  intros H. destruct (add_servers_numpoints list_add calls _ _ _ H) as [E1 E2].
  split; [exact E2|]. unfold Ketama_get_server.
  apply get_server_numpoints_zero. exact E1.
Qed.

(** X9: a server of weight 0 gets no round and no point, whatever the
    total weight and the number of servers. *)
Theorem zero_weight_no_points st sinfo ks :
  round_count st sinfo ks -> sinfo_memory sinfo = 0 ->
  ks = 0 /\ server_points md5 sinfo ks = [].
Proof.
  intros [Hr _] Hw. rewrite Hw in Hr.
  assert (Hks : ks = 0).
  { revert Hr. unfold hash_rounds.
    change (float_of_Z 0) with (S754_zero false).
    change double_40 with (S754_finite false 5629499534213120 (-47)).
    remember (double_of_float (float_of_Z (numservers st))) as y eqn:Ey.
    clear Ey.
    remember (float_of_Z (memory st)) as x eqn:Ex. clear Ex.
    destruct x as [s|s| |s m e]; cbn [SFdiv double_of_float float_cast SFmul];
      destruct y as [t|t| |t m' e']; cbn; intros H;
      try discriminate; injection H as <-; reflexivity. }
  split; [exact Hks|]. rewrite Hks. reflexivity.
Qed.

End Once.

(** ** The search, on any array *)

Lemma load_point_entry i st v :
  load_point i st = Done (v, st) ->
  exists arr m, continuum st = Some arr /\ 0 <= i /\
                nth_error arr (Z.to_nat i) = Some m /\ v = point m.
Proof.
  unfold load_point. destruct (continuum st) as [arr|]; [|discriminate].
  destruct (Z.ltb_spec i 0) as [Hi|Hi]; [discriminate|].
  destruct (nth_error arr (Z.to_nat i)) as [m|] eqn:E; [|discriminate].
  intros H. injection H as <-. exists arr, m. auto.
Qed.

Lemma search_branch_match h lowp highp midp midval midval1 p :
  search_branch h lowp highp midp midval midval1 = Return p -> p <> 0 ->
  p = midp /\ midval1 < h <= midval.
Proof.
  unfold search_branch.
  destruct (Z.leb_spec h midval) as [Ha|Ha];
    destruct (Z.ltb_spec midval1 h) as [Hb|Hb]; cbn [andb].
  - intros H. injection H as <-. lia.
  - destruct (_ <? _); intros H; [injection H as <-; lia|discriminate].
  - destruct (_ <? _); intros H; [injection H as <-; lia|discriminate].
  - destruct (_ <? _); intros H; [injection H as <-; lia|discriminate].
Qed.

(** An index other than 0 is only returned by the match test. *)
Lemma loop_match fuel : forall h lowp highp st p st',
  get_server_loop fuel h lowp highp st = Done (p, st') -> p <> 0 ->
  exists arr m m1,
    continuum st = Some arr /\ 0 < p /\
    nth_error arr (Z.to_nat p) = Some m /\
    nth_error arr (Z.to_nat (p - 1)) = Some m1 /\
    point m1 < h <= point m.
Proof.
  induction fuel as [|fuel IH]; intros h lowp highp st p st' H Hp.
  - discriminate.
  - simpl in H. apply bind_done in H. destruct H as (it & k1 & Hit & H).
    apply iteration_inv in Hit. cbv zeta in Hit.
    destruct Hit as (-> & _ & [[_ ->]|(_ & mv & mv1 & Hl & Hl1 & ->)]).
    + unfold ret in H. injection H as <- _. contradiction.
    + destruct (search_branch h lowp highp (Z.quot (lowp + highp) 2) mv mv1)
        as [q|l' h'] eqn:Hb.
      * unfold ret in H. injection H as <- _.
        destruct (search_branch_match _ _ _ _ _ _ _ Hb Hp) as [-> Hm].
        destruct (Z.eqb_spec (Z.quot (lowp + highp) 2) 0) as [E|E];
          [contradiction|].
        apply load_point_entry in Hl. apply load_point_entry in Hl1.
        destruct Hl as (arr & m & Hc & H0 & Hn & ->).
        destruct Hl1 as (arr' & m1 & Hc' & H0' & Hn1 & ->).
        rewrite Hc in Hc'. injection Hc' as <-.
        exists arr, m, m1. repeat split; try assumption; lia.
      * apply (IH _ _ _ _ _ _ H Hp).
Qed.

(** ** The number of iterations *)

Lemma search_branch_halves h lowp highp midval midval1 lowp' highp' :
  0 <= lowp -> lowp <= highp ->
  search_branch h lowp highp (Z.quot (lowp + highp) 2) midval midval1
    = Continue lowp' highp' ->
  2 * (highp' - lowp' + 1) <= highp - lowp + 1.
Proof.
  intros H0 Hle. unfold search_branch.
  destruct ((h <=? midval) && (midval1 <? h)); [discriminate|].
  destruct (midval <? h).
  - destruct (Z.ltb_spec highp (Z.quot (lowp + highp) 2 + 1)) as [Hc|Hc];
      [discriminate|].
    intros E. injection E as <- <-.
    Z.to_euclidean_division_equations. lia.
  - destruct (Z.ltb_spec (Z.quot (lowp + highp) 2 - 1) lowp) as [Hc|Hc];
      [discriminate|].
    intros E. injection E as <- <-.
    Z.to_euclidean_division_equations. lia.
Qed.

Lemma loop_logarithmic fuel : forall h lowp highp st,
  0 <= lowp -> lowp <= highp ->
  highp - lowp + 1 < 2 ^ Z.of_nat fuel ->
  get_server_loop fuel h lowp highp st <> OutOfFuel.
Proof.
  induction fuel as [|fuel IH]; intros h lowp highp st H0 Hle Hf.
  - change (2 ^ Z.of_nat 0) with 1 in Hf. lia.
  - simpl. unfold bind.
    destruct (get_server_iteration h lowp highp st) as [[it k1]| | |] eqn:Hit;
      try discriminate.
    + destruct it as [q|l' h']; [discriminate|].
      pose proof (iteration_shrinks _ _ _ _ _ _ _ Hit) as (Hl & Hh & Hs).
      apply iteration_inv in Hit. cbv zeta in Hit.
      destruct Hit as (_ & _ & [[_ C]|(_ & mv & mv1 & _ & _ & Hb)]);
        [discriminate|].
      symmetry in Hb. apply search_branch_halves in Hb; try assumption.
      apply IH; try lia.
      rewrite Nat2Z.inj_succ, Z.pow_succ_r in Hf by lia. lia.
    + exfalso. exact (iteration_not_out_of_fuel _ _ _ _ Hit).
Qed.

Lemma loop_fuel_mono fuel : forall h lowp highp st fuel',
  get_server_loop fuel h lowp highp st <> OutOfFuel ->
  (fuel <= fuel')%nat ->
  get_server_loop fuel' h lowp highp st =
  get_server_loop fuel h lowp highp st.
Proof.
  induction fuel as [|fuel IH]; intros h lowp highp st fuel' H Hle.
  - exfalso. apply H. reflexivity.
  - destruct fuel' as [|fuel']; [lia|].
    simpl in *. unfold bind in *.
    destruct (get_server_iteration h lowp highp st) as [[it k1]| | |];
      try reflexivity.
    destruct it as [q|l' h']; [reflexivity|].
    apply IH; [exact H|lia].
Qed.

(** X10: whatever the array holds, sorted or not, an index other than 0
    is returned only for an entry whose position is at least the hash while
    the position of the entry before it is below the hash. *)
Theorem get_server_match md5 key st p st' :
  Ketama_get_server md5 key st = Done (p, st') -> p <> 0 ->
  exists arr m m1,
    continuum st = Some arr /\ 0 < p /\
    nth_error arr (Z.to_nat p) = Some m /\
    nth_error arr (Z.to_nat (p - 1)) = Some m1 /\
    point m1 < ketama_hashi md5 key <= point m.
Proof.
  unfold Ketama_get_server. rewrite get_server_for_unfold.
  apply loop_match.
Qed.

(** X11: the hash value 0 is sent to entry 0: positions being unsigned,
    the match test [h > midval1] never holds for it. *)
Theorem get_server_hash_zero st :
  holds_ring st -> numpoints st < SEARCH_LIMIT ->
  (forall arr m, continuum st = Some arr -> In m arr -> 0 <= point m) ->
  get_server_for 0 st = Done (0, st).
Proof.
  intros Hr Hlim Hpos.
  destruct (get_server_for_total st 0 Hr Hlim) as (p & Hp & _).
  destruct (Z.eq_dec p 0) as [->|Hne]; [exact Hp|].
  exfalso. pose proof Hp as Hp'. rewrite get_server_for_unfold in Hp'.
  destruct (loop_match _ _ _ _ _ _ _ Hp' Hne)
    as (arr & m & m1 & Hc & _ & _ & Hm1 & Hlt & _).
  apply nth_error_In in Hm1. specialize (Hpos arr m1 Hc Hm1). lia.
Qed.

(** X12: the search is logarithmic: [n] iterations are enough as soon as
    [numpoints + 1 < 2^n], and the loop run with that budget ends as the
    lookup does. *)
Theorem get_server_logarithmic st h fuel :
  0 <= numpoints st -> numpoints st + 1 < 2 ^ Z.of_nat fuel ->
  get_server_loop fuel h 0 (numpoints st) st <> OutOfFuel /\
  get_server_loop fuel h 0 (numpoints st) st = get_server_for h st.
Proof.
  intros Hn Hf.
  assert (H1 : get_server_loop fuel h 0 (numpoints st) st <> OutOfFuel)
    by (apply loop_logarithmic; lia).
  split; [exact H1|]. rewrite get_server_for_unfold.
  assert (H2 : get_server_loop (S (Z.to_nat (numpoints st))) h 0
                 (numpoints st) st <> OutOfFuel)
    by (apply get_server_loop_fuel; lia).
  destruct (Nat.le_ge_cases fuel (S (Z.to_nat (numpoints st)))) as [Hle|Hle].
  - symmetry. apply loop_fuel_mono; assumption.
  - apply loop_fuel_mono; assumption.
Qed.

(** ** The search, on a sorted ring *)

Lemma successor_left st h p :
  is_successor (ring st) h p ->
  (exists m, In m (ring st) /\ h <= point m) ->
  exists m, nth_error (ring st) (Z.to_nat p) = Some m /\ 0 <= p /\
            h <= point m /\
            forall j m', (j < Z.to_nat p)%nat ->
                         nth_error (ring st) j = Some m' -> point m' < h.
Proof.
  intros [H|[_ Hall]] (m & Hin & Hle).
  - exact H.
  - specialize (Hall m Hin). lia.
Qed.

(** X13: on a sorted ring of fewer than 2^30 points the position of any
    entry of the ring is sent to the first entry at that position; it is
    the entry itself when no earlier entry shares its position. *)
Theorem get_server_own_position st i m :
  holds_ring st -> numpoints st < SEARCH_LIMIT -> sorted (ring st) ->
  nth_error (ring st) i = Some m ->
  exists p m',
    get_server_for (point m) st = Done (p, st) /\
    nth_error (ring st) (Z.to_nat p) = Some m' /\
    point m' = point m /\ (Z.to_nat p <= i)%nat /\ 0 <= p /\
    (forall j m'', (j < Z.to_nat p)%nat ->
                   nth_error (ring st) j = Some m'' -> point m'' < point m).
Proof.
  intros Hr Hlim Hs Hm.
  destruct (get_server_for_successor st (point m) Hr Hlim Hs)
    as (p & Hp & Hsucc).
  destruct (successor_left st _ p Hsucc) as (m' & Hm' & H0 & Hle & Hbelow).
  { exists m. split; [eapply nth_error_In; exact Hm|lia]. }
  assert (Hpi : (Z.to_nat p <= i)%nat).
  { destruct (Nat.le_gt_cases (Z.to_nat p) i) as [H|H]; [exact H|].
    specialize (Hbelow i m H Hm). lia. }
  exists p, m'. repeat split; try assumption.
  pose proof (sorted_le _ Hs i (Z.to_nat p) m' m Hpi Hm' Hm). lia.
Qed.

(** X14: on a sorted ring of fewer than 2^30 points the lookup is
    monotone up to the wrap-around: of two hash values that some position
    reaches, the larger is not sent to an earlier entry. *)
Theorem get_server_monotone st h1 h2 :
  holds_ring st -> numpoints st < SEARCH_LIMIT -> sorted (ring st) ->
  h1 <= h2 -> (exists m, In m (ring st) /\ h2 <= point m) ->
  exists p1 p2,
    get_server_for h1 st = Done (p1, st) /\
    get_server_for h2 st = Done (p2, st) /\ 0 <= p1 <= p2.
Proof.
  intros Hr Hlim Hs Hle (m & Hin & Hm).
  destruct (get_server_for_successor st h1 Hr Hlim Hs) as (p1 & Hp1 & S1).
  destruct (get_server_for_successor st h2 Hr Hlim Hs) as (p2 & Hp2 & S2).
  destruct (successor_left st _ p1 S1) as (m1 & Hm1 & H01 & Hle1 & Hb1).
  { exists m. split; [exact Hin|lia]. }
  destruct (successor_left st _ p2 S2) as (m2 & Hm2 & H02 & Hle2 & Hb2).
  { exists m. split; [exact Hin|lia]. }
  exists p1, p2. split; [exact Hp1|]. split; [exact Hp2|].
  split; [exact H01|].
  destruct (Z_le_gt_dec p1 p2) as [H|H]; [exact H|].
  specialize (Hb1 (Z.to_nat p2) m2 ltac:(lia) Hm2). lia.
Qed.

(** ** The further properties at concrete inputs *)

Lemma add_servers_bookkeeping_witness :
  exists st,
    add_servers list_add_spec five_servers Ketama_new = Done (tt, st) /\
    numservers st = Z.of_nat (List.length five_servers) mod 4294967296 /\
    memory st =
      fold_right Z.add 0 (map snd five_servers) mod 18446744073709551616 /\
    numpoints st = 0 /\ continuum st = None.
Proof.
  eexists. split; [vm_compute; reflexivity|].
  eapply (add_servers_bookkeeping list_add_spec five_servers).
  vm_compute. reflexivity.
Defined.

Lemma add_server_ipv4_witness :
  strlen "192.168.100.200" <= 15 /\ 0 <= 65535 <= 65535 /\
  exists k',
    Ketama_add_server list_add_spec "192.168.100.200" 65535 7 Ketama_new
      = Done (tt, k') /\
    servers k' =
      list_add_spec
        {| addr := ("192.168.100.200" ++ ":" ++ dec 65535)%string;
           sinfo_memory := 7 mod 18446744073709551616 |}
        (servers Ketama_new) /\
    strlen ("192.168.100.200" ++ ":" ++ dec 65535) <= 21 /\
    numservers k' = (numservers Ketama_new + 1) mod 4294967296 /\
    memory k' =
      (memory Ketama_new + 7 mod 18446744073709551616)
        mod 18446744073709551616 /\
    numpoints k' = numpoints Ketama_new /\
    continuum k' = continuum Ketama_new.
Proof.
  split; [vm_compute; discriminate|]. split; [lia|].
  apply (add_server_ipv4 list_add_spec "192.168.100.200" 65535 7 Ketama_new).
  - vm_compute. discriminate.
  - lia.
Defined.

Lemma round_names_fit_witness :
  strlen (addr widest_server) <= 21 /\
  (forall ks, 0 <= ks <= 10000000 -> names_fit widest_server ks = true) /\
  (strlen (addr widest_server) = 21 ->
   forall cont k,
     hash_round MD5.md5 widest_server 10000000 cont k = Undefined).
Proof.
  split; [vm_compute; discriminate|].
  apply (round_names_fit MD5.md5 widest_server).
  vm_compute. discriminate.
Defined.

Lemma create_continuum_frame_witness :
  exists st',
    Ketama_create_continuum MD5.md5 roomy_server_set = Done (tt, st') /\
    0 < numservers roomy_server_set /\ continuum roomy_server_set = None /\
    continuum st' <> None /\
    numpoints st' = numpoints roomy_server_set /\
    numservers st' = numservers roomy_server_set /\
    memory st' = memory roomy_server_set /\
    servers st' = servers roomy_server_set.
Proof.
  eexists. split; [vm_compute; reflexivity|].
  apply (create_continuum_frame MD5.md5 roomy_server_set).
  vm_compute. reflexivity.
Defined.

Lemma create_continuum_once_witness :
  exists st' st'',
    Ketama_create_continuum MD5.md5 roomy_server_set = Done (tt, st') /\
    add_servers list_add_spec one_server st' = Done (tt, st'') /\
    continuum st'' = continuum st' /\
    Ketama_create_continuum MD5.md5 st' = Aborted /\
    Ketama_create_continuum MD5.md5 st'' = Aborted.
Proof.
  eexists. eexists. split; [vm_compute; reflexivity|].
  split; [vm_compute; reflexivity|].
  eapply (create_continuum_once MD5.md5 list_add_spec roomy_server_set _
            one_server).
  - vm_compute. reflexivity.
  - vm_compute. reflexivity.
Defined.

Lemma get_server_unconstructed_witness :
  exists st,
    add_servers list_add_spec five_servers Ketama_new = Done (tt, st) /\
    continuum st = None /\
    Ketama_get_server MD5.md5 "key" st = Done (0, st).
Proof.
  eexists. split; [vm_compute; reflexivity|].
  eapply (get_server_unconstructed MD5.md5 list_add_spec five_servers).
  vm_compute. reflexivity.
Defined.

Lemma zero_weight_no_points_witness :
  round_count idle_server_set {| addr := "a:1"; sinfo_memory := 0 |} 0 /\
  0 = 0 /\
  server_points MD5.md5 {| addr := "a:1"; sinfo_memory := 0 |} 0 = [].
Proof.
  assert (H : round_count idle_server_set
                {| addr := "a:1"; sinfo_memory := 0 |} 0)
    by (split; vm_compute; reflexivity).
  split; [exact H|].
  apply (zero_weight_no_points MD5.md5 idle_server_set _ 0 H). reflexivity.
Defined.

Lemma get_server_match_witness :
  Ketama_get_server MD5.md5 "key" wide_ring = Done (1, wide_ring) /\
  1 <> 0 /\
  exists arr m m1,
    continuum wide_ring = Some arr /\ 0 < 1 /\
    nth_error arr (Z.to_nat 1) = Some m /\
    nth_error arr (Z.to_nat (1 - 1)) = Some m1 /\
    point m1 < ketama_hashi MD5.md5 "key" <= point m.
Proof.
  assert (H : Ketama_get_server MD5.md5 "key" wide_ring
              = Done (1, wide_ring)) by (vm_compute; reflexivity).
  split; [exact H|]. split; [discriminate|].
  apply (get_server_match MD5.md5 "key" wide_ring 1 wide_ring H).
  discriminate.
Defined.

Lemma get_server_hash_zero_witness :
  holds_ring small_ring /\ numpoints small_ring < SEARCH_LIMIT /\
  get_server_for 0 small_ring = Done (0, small_ring).
Proof.
  split; [reflexivity|]. split; [reflexivity|].
  apply (get_server_hash_zero small_ring); [reflexivity|reflexivity|].
  intros arr m Hc Hin. injection Hc as <-.
  destruct Hin as [<-|[<-|[<-|[]]]]; discriminate.
Defined.

Lemma get_server_logarithmic_witness :
  0 <= numpoints small_ring /\
  numpoints small_ring + 1 < 2 ^ Z.of_nat 3 /\
  get_server_loop 3 15 0 (numpoints small_ring) small_ring <> OutOfFuel /\
  get_server_loop 3 15 0 (numpoints small_ring) small_ring
    = get_server_for 15 small_ring.
Proof.
  split; [discriminate|]. split; [reflexivity|].
  apply (get_server_logarithmic small_ring 15 3); [discriminate|reflexivity].
Defined.

Lemma get_server_own_position_witness :
  nth_error (ring small_ring) 2 = Some {| point := 20; ip := "a:1" |} /\
  exists p m',
    get_server_for 20 small_ring = Done (p, small_ring) /\
    nth_error (ring small_ring) (Z.to_nat p) = Some m' /\
    point m' = 20 /\ (Z.to_nat p <= 2)%nat /\ 0 <= p /\
    (forall j m'', (j < Z.to_nat p)%nat ->
                   nth_error (ring small_ring) j = Some m'' ->
                   point m'' < 20).
Proof.
  split; [reflexivity|].
  apply (get_server_own_position small_ring 2
           {| point := 20; ip := "a:1" |}).
  - reflexivity.
  - reflexivity.
  - apply sortedb_sorted. reflexivity.
  - reflexivity.
Defined.

Lemma get_server_monotone_witness :
  5 <= 15 /\
  exists p1 p2,
    get_server_for 5 small_ring = Done (p1, small_ring) /\
    get_server_for 15 small_ring = Done (p2, small_ring) /\ 0 <= p1 <= p2.
Proof.
  split; [discriminate|].
  apply (get_server_monotone small_ring 5 15).
  - reflexivity.
  - reflexivity.
  - apply sortedb_sorted. reflexivity.
  - discriminate.
  - exists {| point := 20; ip := "b:1" |}. split.
    + right. left. reflexivity.
    + discriminate.
Defined.

(** ** Construction, then lookup *)



(** ** Construction and the size of its block *)

(** X16: construction requests a block of [numservers] entries and stores
    four entries for every round.  When the rounds of the servers, each
    count defined and each name within its buffer, come to more entries
    than [numservers], construction stores the entries that fit and then
    one past the end of the block: the run is undefined and no continuum
    is returned. *)
Theorem create_continuum_past_block md5 st rounds :
  0 < numservers st -> continuum st = None ->
  Forall2 (round_count st) (servers st) rounds ->
  4 * total_rounds rounds < 4294967296 ->
  numservers st < 4 * total_rounds rounds ->
  Ketama_create_continuum md5 st = Undefined /\
  forall st', Ketama_create_continuum md5 st <> Done (tt, st').
Proof.
  intros Hn Hc HF Hb Hout.
  pose proof (create_continuum_outside md5 st rounds Hn Hc HF Hb Hout) as H.
  split; [exact H|]. intros st' E. rewrite H in E. discriminate E.
Qed.

(** The structure that [Ketama_add_server(k, "127.0.0.1", 11211, 1)]
    builds: one entry requested, 160 to store. *)
Lemma create_continuum_past_block_witness :
  add_servers list_add_spec one_server Ketama_new = Done (tt, one_server_set) /\
  0 < numservers one_server_set /\ continuum one_server_set = None /\
  Forall2 (round_count one_server_set) (servers one_server_set) [40] /\
  4 * total_rounds [40] < 4294967296 /\
  numservers one_server_set < 4 * total_rounds [40] /\
  Ketama_create_continuum MD5.md5 one_server_set = Undefined /\
  forall st', Ketama_create_continuum MD5.md5 one_server_set <> Done (tt, st').
Proof.
  split; [vm_compute; reflexivity|].
  split; [reflexivity|]. split; [reflexivity|].
  split; [exact one_server_rounds|]. split; [reflexivity|].
  split; [reflexivity|].
  apply (create_continuum_past_block MD5.md5 one_server_set [40]).
  - reflexivity.
  - reflexivity.
  - exact one_server_rounds.
  - reflexivity.
  - reflexivity.
Defined.
